(** * Traceability: transaction integrity and product lineage

    A shallow embedding of [web/traceability/models.py]
    ([Transaction.verify_sign]) and of [web/traceability/views.py]
    ([TransactionDetail.get_context_data] and its helpers), with the
    properties of the canonical encoding, of signature verification and
    of lineage resolution proved over it. *)

From Stdlib Require Import ZArith NArith String Ascii DecimalString.
From Stdlib.Strings Require Import Byte.
From stdpp Require Import gmap strings list sorting.

Local Open Scope N_scope.
Local Set Warnings "-register-all".

(** ** Python values *)

(** A Python [str] is a sequence of Unicode code points. *)
Abbreviation pystr := (list N).

(** [u "abc"] is the Python literal ['abc'] (ASCII literals only). *)
Fixpoint u (s : string) : pystr :=
  match s with
  | EmptyString => []
  | String a r => N_of_ascii a :: u r
  end.

(** Python compares strings code point by code point; a proper prefix is
    smaller. *)
Fixpoint str_compare (a b : pystr) : comparison :=
  match a, b with
  | [], [] => Eq
  | [], _ :: _ => Lt
  | _ :: _, [] => Gt
  | x :: a', y :: b' =>
      match N.compare x y with
      | Eq => str_compare a' b'
      | c => c
      end
  end.

Definition str_le (a b : pystr) : Prop := str_compare a b <> Gt.
Definition str_lt (a b : pystr) : Prop := str_compare a b = Lt.

(** What [json.loads] produces, hence what a [JSONField] holds.  A [dict]
    keeps its insertion order, so it is an association list; its keys are
    strings and pairwise distinct ([dict_wf]).  A [float] is carried by the
    text that [json.dumps] writes for it ([float.__repr__], and [NaN],
    [Infinity], [-Infinity] for the values that are not finite). *)
Inductive json : Type :=
  | JNull
  | JBool (b : bool)
  | JInt (z : Z)
  | JFloat (repr : pystr)
  | JStr (s : pystr)
  | JList (l : list json)
  | JDict (items : list (pystr * json)).

Abbreviation pydict := (list (pystr * json)).

Definition dict_keys (d : pydict) : list pystr := d.*1.
Definition dict_wf (d : pydict) : Prop := NoDup (dict_keys d).

(** [k in d] and [d.get(k)]. *)
Fixpoint dict_get (k : pystr) (d : pydict) : option json :=
  match d with
  | [] => None
  | (k', v) :: r => if decide (k' = k) then Some v else dict_get k r
  end.

Definition dict_contains (k : pystr) (d : pydict) : bool :=
  match dict_get k d with Some _ => true | None => false end.

(** [d[k] = v]: an existing key keeps its position. *)
Fixpoint dict_set (k : pystr) (v : json) (d : pydict) : pydict :=
  match d with
  | [] => [(k, v)]
  | (k', v') :: r =>
      if decide (k' = k) then (k', v) :: r else (k', v') :: dict_set k v r
  end.

(** [OrderedDict(pairs)]. *)
Definition OrderedDict (pairs : list (pystr * json)) : pydict :=
  fold_left (fun d kv => dict_set kv.1 kv.2 d) pairs [].

(** [sorted(d.items())].  Items are tuples, compared on the key first; the
    values would only be compared on equal keys, which a dict does not
    have. *)
Definition item_le (a b : pystr * json) : Prop := str_le a.1 b.1.

Global Instance str_le_dec a b : Decision (str_le a b).
Proof. unfold str_le. solve_decision. Defined.

Global Instance item_le_dec : RelDecision item_le.
Proof. intros a b. unfold item_le. apply _. Defined.

Definition sorted_items (d : pydict) : list (pystr * json) :=
  merge_sort item_le d.

(** Truth value of an object, as [if x:] takes it. *)
Definition py_truthy (j : json) : bool :=
  match j with
  | JNull => false
  | JBool b => b
  | JInt z => negb (Z.eqb z 0)
  | JFloat r => negb (bool_decide (r = u "0.0") || bool_decide (r = u "-0.0"))
  | JStr s => negb (bool_decide (s = []))
  | JList l => negb (bool_decide (l = []))
  | JDict d => negb (bool_decide (d = []))
  end.

(** [isinstance(x, str)] and [x == None]. *)
Definition is_str (j : json) : bool :=
  match j with JStr _ => true | _ => false end.

Definition is_none (j : json) : bool :=
  match j with JNull => true | _ => false end.

(** ** Exceptions *)

Inductive PyErr : Type :=
  | KeyError (k : json)
  | IndexError
  | TypeError
  | ValueError
  | UnicodeEncodeError.

Inductive result (A : Type) : Type :=
  | Return (a : A)
  | Raise (e : PyErr).
Arguments Return {A} a.
Arguments Raise {A} e.

Global Instance result_ret : MRet result := fun A a => Return a.
Global Instance result_bind : MBind result := fun A B f m =>
  match m with
  | Return a => f a
  | Raise e => Raise e
  end.

Definition returns {A} (m : result A) : Prop := exists a, m = Return a.
Definition raises {A} (m : result A) : Prop := exists e, m = Raise e.

(** A loop that runs [f] on each element in turn and stops at the first
    exception. *)
Fixpoint for_each {A B} (f : A -> result B) (l : list A) : result (list B) :=
  match l with
  | [] => Return []
  | x :: r =>
      match f x with
      | Return y =>
          match for_each f r with
          | Return ys => Return (y :: ys)
          | Raise e => Raise e
          end
      | Raise e => Raise e
      end
  end.

(** [x[i]] for a literal index [i >= 0]. *)
Definition py_getitem (j : json) (i : nat) : result json :=
  match j with
  | JList l => match l !! i with Some x => Return x | None => Raise IndexError end
  | JStr s => match s !! i with Some c => Return (JStr [c]) | None => Raise IndexError end
  | JDict _ => Raise (KeyError (JInt (Z.of_nat i)))
  | _ => Raise TypeError
  end.

(** [for p in x]. *)
Definition py_iter (j : json) : result (list json) :=
  match j with
  | JList l => Return l
  | JStr s => Return ((fun c => JStr [c]) <$> s)
  | JDict d => Return (JStr <$> dict_keys d)
  | _ => Raise TypeError
  end.

(** ** [json.dumps] (with [ensure_ascii], the default) *)

Definition hex_digit (n : N) : N :=
  if n <? 10 then 48 + n else 87 + n.

(** ['{0:04x}'.format(n)] for [n < 0x10000]. *)
Definition hex4 (n : N) : pystr :=
  [hex_digit (n / 4096 mod 16); hex_digit (n / 256 mod 16);
   hex_digit (n / 16 mod 16); hex_digit (n mod 16)].

Definition escape_u (n : N) : pystr := u "\u" ++ hex4 n.

Definition escape_char (c : N) : pystr :=
  if c =? 34 then [92; 34] else
  if c =? 92 then u "\\" else
  if c =? 10 then u "\n" else
  if c =? 13 then u "\r" else
  if c =? 9 then u "\t" else
  if c =? 8 then u "\b" else
  if c =? 12 then u "\f" else
  if (32 <=? c) && (c <=? 126) then [c] else
  if c <? 65536 then escape_u c else
    let n := c - 65536 in
    escape_u (N.lor 55296 (N.land (N.shiftr n 10) 1023))
      ++ escape_u (N.lor 56320 (N.land n 1023)).

Definition encode_basestring_ascii (s : pystr) : pystr :=
  [34] ++ concat (escape_char <$> s) ++ [34].

(** [int.__repr__]. *)
Definition int_repr (z : Z) : pystr := u (NilZero.string_of_int (Z.to_int z)).

Section dumps.
(** [separators = (item_separator, key_separator)]. *)
Variables item_separator key_separator : pystr.

Fixpoint dumps (j : json) : pystr :=
  match j with
  | JNull => u "null"
  | JBool true => u "true"
  | JBool false => u "false"
  | JInt z => int_repr z
  | JFloat r => r
  | JStr s => encode_basestring_ascii s
  | JList l =>
      let fix elems (l : list json) : pystr :=
        match l with
        | [] => []
        | [x] => dumps x
        | x :: r => dumps x ++ item_separator ++ elems r
        end in
      u "[" ++ elems l ++ u "]"
  | JDict d =>
      let fix members (d : list (pystr * json)) : pystr :=
        match d with
        | [] => []
        | [(k, v)] => encode_basestring_ascii k ++ key_separator ++ dumps v
        | (k, v) :: r =>
            encode_basestring_ascii k ++ key_separator ++ dumps v
              ++ item_separator ++ members r
        end in
      u "{" ++ members d ++ u "}"
  end.
End dumps.

(** ** [str.encode('utf-8')] and [bytes.fromhex] *)

Definition byte_of (n : N) : byte := default x00 (Byte.of_N n).

Definition utf8_char (c : N) : result (list byte) :=
  if c <? 128 then Return [byte_of c] else
  if c <? 2048 then Return [byte_of (192 + c / 64); byte_of (128 + c mod 64)] else
  if (55296 <=? c) && (c <=? 57343) then Raise UnicodeEncodeError else
  if c <? 65536 then
    Return [byte_of (224 + c / 4096); byte_of (128 + c / 64 mod 64);
            byte_of (128 + c mod 64)]
  else
    Return [byte_of (240 + c / 262144); byte_of (128 + c / 4096 mod 64);
            byte_of (128 + c / 64 mod 64); byte_of (128 + c mod 64)].

Definition encode_utf8 (s : pystr) : result (list byte) :=
  chunks ← for_each utf8_char s; mret (concat chunks).

Definition is_space (c : N) : bool :=
  (c =? 32) || ((9 <=? c) && (c <=? 13)).

Definition hex_value (c : N) : option N :=
  if (48 <=? c) && (c <=? 57) then Some (c - 48) else
  if (97 <=? c) && (c <=? 102) then Some (c - 87) else
  if (65 <=? c) && (c <=? 70) then Some (c - 55) else None.

(** [bytes.fromhex(s)]: white space is skipped before each pair of hex
    digits; anything else is a [ValueError]. *)
Fixpoint fromhex (s : pystr) : result (list byte) :=
  match s with
  | [] => Return []
  | c :: r =>
      if is_space c then fromhex r else
      match hex_value c, r with
      | Some hi, d :: r' =>
          match hex_value d with
          | Some lo =>
              match fromhex r' with
              | Return bs => Return (byte_of (16 * hi + lo) :: bs)
              | Raise e => Raise e
              end
          | None => Raise ValueError
          end
      | _, _ => Raise ValueError
      end
  end.

(** ** The models ([models.py]) *)

Module Key.
Record t : Type := mk {
  hash : pystr;
  public_key : pystr;
  current_status : pystr;
  name : pystr;
  description : option pystr }.
End Key.

(** The two [DateTimeField]s of a transaction take no part in what
    follows and are left out.  The two [JSONField]s hold JSON objects, as
    the code takes them ([.items()], [in], [[key]]): the payload keeps its
    key order, which the serialization depends on; the quantity mapping is
    only looked up. *)
Module Transaction.
Record t : Type := mk {
  hash : pystr;
  type : Z;
  mode : Z;
  transmitter : Key.t;
  receiver : option Key.t;
  raw_client_timestamp : pystr;
  transaction_data : pydict;
  sign : pystr;
  updated_quantity : gmap pystr json;
  errors : list pystr }.
End Transaction.

Module TransactionInput.
Record t : Type := mk {
  t_hash : pystr;
  input : pystr;
  product : pystr }.
End TransactionInput.

(** A product identifier; its references are kept as the identifiers
    they hold. *)
Module ProductID.
Record t : Type := mk {
  id : pystr;
  product : pystr;
  first_transaction : pystr;
  last_transaction : pystr;
  owner : option pystr;
  destination : option pystr }.
End ProductID.

(** The calls [verify_sign] makes into the RSA library, in order. *)
Inductive Call : Type :=
  | ImportKey (pem : pystr)
  | NewVerifier
  | Verify (signature : list byte).

(** A computation that may raise and that records its library calls. *)
Record traced (A : Type) : Type := Traced {
  calls : list Call;
  outcome : result A }.
Arguments Traced {A} calls outcome.
Arguments calls {A} _.
Arguments outcome {A} _.

Global Instance traced_ret : MRet traced := fun A a => Traced [] (Return a).
Global Instance traced_bind : MBind traced := fun A B f m =>
  match outcome m with
  | Return a => Traced (calls m ++ calls (f a)) (outcome (f a))
  | Raise e => Traced (calls m) (Raise e)
  end.

Definition lift {A} (r : result A) : traced A := Traced [] r.
Definition call {A} (c : Call) (r : result A) : traced A := Traced [c] r.

(** The part of [verify_sign] that builds the text to hash (lines 57-63). *)
Definition signed_fields (self : Transaction.t) : list (pystr * json) :=
  let ordered_data := OrderedDict (sorted_items (Transaction.transaction_data self)) in
  let transaction :=
    [(u "type", JInt (Transaction.type self));
     (u "mode", JInt (Transaction.mode self));
     (u "transmitter", JStr (Key.hash (Transaction.transmitter self)))] in
  let transaction :=
    match Transaction.receiver self with
    | Some r => transaction ++ [(u "receiver", JStr (Key.hash r))]
    | None => transaction
    end in
  transaction ++
    [(u "timestamp", JStr (Transaction.raw_client_timestamp self));
     (u "data", JDict ordered_data)].

Definition serialized_transaction (self : Transaction.t) : pystr :=
  let transaction := OrderedDict (signed_fields self) in
  dumps (u ",") (u ":") (JDict transaction).

Definition canonical_bytes (self : Transaction.t) : result (list byte) :=
  encode_utf8 (serialized_transaction self).

(** The payload shape of a product list: pairs of a product code and a
    value. *)
Definition pair_list (l : list (pystr * json)) : json :=
  JList ((fun cv => JList [JStr cv.1; cv.2]) <$> l).

(** ** The tables, requests and answers of the key views *)

(** The tables.  A row of [transactions] refers to its keys by their
    identifier (the columns [transmitter] and [receiver]); the record
    holds them as loaded.  The rows of [t_inputs] and [product_id] hold
    the identifiers they refer to. *)
Record database : Type := Database {
  keys : list Key.t;
  transactions : list Transaction.t;
  t_inputs : list TransactionInput.t;
  product_id : list ProductID.t }.

(** [Key.objects.get(hash = hash)]; [None] stands for [Key.DoesNotExist]. *)
Definition Key_get (table : list Key.t) (hash : pystr) : option Key.t :=
  head (filter (fun k => Key.hash k = hash) table).

(** [super().save()]: the row that has this primary key is updated, and
    a row is inserted when there is none. *)
Fixpoint upsert (k : Key.t) (table : list Key.t) : list Key.t :=
  match table with
  | [] => [k]
  | row :: rest =>
      if decide (Key.hash row = Key.hash k) then k :: rest
      else row :: upsert k rest
  end.

(** [reverse(name, kwargs = ...)]: the URL configuration is not part of
    these sources, a URL is kept as what [reverse] was asked for. *)
Inductive url : Type :=
  | Path (path : pystr)
  | Reverse (name : pystr) (kwargs : list (pystr * pystr)).

Inductive level : Type := SUCCESS | ERROR.

Record request : Type := Request {
  HTTP_REFERER : option pystr;
  GET_sb : option pystr;
  messages : list (level * pystr) }.

(** What a view leaves behind: the tables, the messages and the redirect
    it answers with, or the exception that leaves it. *)
Inductive view_result : Type :=
  | Redirected (db : database) (messages : list (level * pystr)) (to : url)
  | NameError (name : pystr)
  | Http404
  | Uncaught (e : PyErr).

Definition add_message (r : request) (l : level) (text : pystr)
    : list (level * pystr) :=
  messages r ++ [(l, text)].

(** [request.META.get('HTTP_REFERER', '/')] *)
Definition referer (r : request) : url :=
  Path (default (u "/") (HTTP_REFERER r)).

Definition with_keys (db : database) (table : list Key.t) : database :=
  Database table (transactions db) (t_inputs db) (product_id db).

Definition with_status (k : Key.t) (status : pystr) : Key.t :=
  Key.mk (Key.hash k) (Key.public_key k) status (Key.name k) (Key.description k).

(** A transaction that is deleted with the key [hash]
    ([on_delete = models.CASCADE] on [transmitter] and [receiver]). *)
Definition refers_to_key (hash : pystr) (tx : Transaction.t) : bool :=
  bool_decide (Key.hash (Transaction.transmitter tx) = hash)
  || bool_decide (Key.hash <$> Transaction.receiver tx = Some hash).

(** [k.delete()]: the row of the key and, by the cascades that
    [models.py] declares, the transactions that refer to the key, the
    link rows and the product identifiers that refer to one of these
    transactions, and the product identifiers the key owns. *)
Definition Key_delete (hash : pystr) (db : database) : database :=
  let gone := Transaction.hash <$> filter (fun tx => refers_to_key hash tx = true)
                                     (transactions db) in
  Database
    (filter (fun k => Key.hash k <> hash) (keys db))
    (filter (fun tx => refers_to_key hash tx = false) (transactions db))
    (filter (fun row => (TransactionInput.t_hash row ∉ gone)
                        /\ (TransactionInput.input row ∉ gone)) (t_inputs db))
    (filter (fun p => (ProductID.first_transaction p ∉ gone)
                      /\ (ProductID.last_transaction p ∉ gone)
                      /\ ProductID.owner p <> Some hash) (product_id db)).

(** [Key.get_absolute_url] *)
Definition Key_get_absolute_url (self : Key.t) : url :=
  Reverse (u "key_details") [(u "hash", Key.hash self)].

(** ** Sample data

    A stand-in for the cryptographic libraries, so that the model can be
    run: the digest is a 16-bit checksum, a key is its own text, and a
    signature is the low byte of the checksum. *)

Definition demo_checksum (message : list byte) : N :=
  fold_right (fun b acc => (Byte.to_N b + 31 * acc) mod 65536) 7 message.

Definition demo_hexdigest (message : list byte) : pystr :=
  hex4 (demo_checksum message).

Definition demo_importKey (pem : pystr) : result pystr :=
  if bool_decide (pem = []) then Raise ValueError else Return pem.

Definition demo_verify (key : pystr) (message signature : list byte) : bool :=
  match signature with
  | [b] => Byte.eqb b (byte_of (demo_checksum message mod 256))
  | _ => false
  end.

Definition demo_str (j : json) : pystr := u "?".

Definition message_of (tx : Transaction.t) : list byte :=
  match canonical_bytes tx with
  | Return message => message
  | Raise _ => []
  end.

(** The transaction with the identifier its content gives it. *)
Definition stamped (tx : Transaction.t) : Transaction.t :=
  Transaction.mk (demo_hexdigest (message_of tx))
    (Transaction.type tx) (Transaction.mode tx)
    (Transaction.transmitter tx) (Transaction.receiver tx)
    (Transaction.raw_client_timestamp tx) (Transaction.transaction_data tx)
    (Transaction.sign tx) (Transaction.updated_quantity tx)
    (Transaction.errors tx).

Definition farm : Key.t :=
  Key.mk (u "4f1a") (u "-----BEGIN PUBLIC KEY-----") (u "active") (u "farm") None.

Definition mill : Key.t :=
  Key.mk (u "9c2e") (u "-----BEGIN PUBLIC KEY-----") (u "active") (u "mill") None.

(** A transaction of [farm] with the given identifier, payload, signature
    and quantity mapping. *)
Definition sample (hash : pystr) (data : pydict) (sign : pystr)
    (updated_quantity : gmap pystr json) : Transaction.t :=
  Transaction.mk hash 1 0 farm (Some mill) (u "2019-05-17T09:30:00.000Z")
    data sign updated_quantity [].

Definition harvest : pydict :=
  [(u "product", JList [JList [JStr (u "P1"); JNull]; JList [JStr (u "P2"); JInt 7]]);
   (u "origin", JDict [(u "field", JInt 3); (u "lot", JStr (u "L-9"))])].

(** [harvest] with its top-level keys inserted the other way round. *)
Definition harvest_swapped : pydict :=
  [(u "origin", JDict [(u "field", JInt 3); (u "lot", JStr (u "L-9"))]);
   (u "product", JList [JList [JStr (u "P1"); JNull]; JList [JStr (u "P2"); JInt 7]])].

(** [harvest] with the keys of the nested mapping inserted the other way
    round. *)
Definition harvest_nested_swapped : pydict :=
  [(u "product", JList [JList [JStr (u "P1"); JNull]; JList [JStr (u "P2"); JInt 7]]);
   (u "origin", JDict [(u "lot", JStr (u "L-9")); (u "field", JInt 3)])].

Definition stock : gmap pystr json :=
  <[u "P1" := JInt 42]> (<[u "P2" := JInt 99]> ∅).

(** The link rows of the specification's example. *)
Definition links : list TransactionInput.t :=
  [TransactionInput.mk (u "B") (u "A") (u "P");
   TransactionInput.mk (u "C") (u "B") (u "P")].

(** Sample transactions. *)
Definition forged : Transaction.t := sample (u "0000") harvest (u "00") stock.
Definition forged_swapped : Transaction.t :=
  sample (u "0000") harvest_swapped (u "00") stock.
Definition forged_nested : Transaction.t :=
  sample (u "0000") harvest_nested_swapped (u "00") stock.
Definition badly_signed : Transaction.t := stamped (sample [] harvest (u "ab") stock).
Definition garbled : Transaction.t := stamped (sample [] harvest (u "zz") stock).
Definition tx_B : Transaction.t :=
  sample (u "B") [(u "product", pair_list [(u "P", JInt 5)])] (u "00") ∅.
Definition shapeless : Transaction.t :=
  sample (u "B") [(u "note", JStr (u "n/a"))] (u "00") ∅.
Definition harvested : Transaction.t := sample (u "B") harvest (u "00") stock.
Definition milled : Transaction.t :=
  sample (u "B")
    [(u "product_in", pair_list [(u "P1", JNull)]);
     (u "product_out", pair_list [(u "P1", JNull)])] (u "00") stock.
Definition minting : Transaction.t :=
  sample (u "B")
    [(u "new_id", JStr (u "ID-1"));
     (u "product", pair_list [(u "P1", JInt 7); (u "P2", JStr (u "OLD"))])]
    (u "00") stock.
Definition minting_empty : Transaction.t :=
  sample (u "B")
    [(u "new_id", JStr []); (u "product", pair_list [(u "P1", JInt 7)])]
    (u "00") stock.
Definition unstocked : Transaction.t :=
  sample (u "B")
    [(u "product", pair_list [(u "P1", JNull); (u "P3", JNull)])] (u "00") stock.
Definition milled_unstocked : Transaction.t :=
  sample (u "B")
    [(u "product_in", pair_list []);
     (u "product_out", pair_list [(u "P1", JNull)])] (u "00") ∅.

(** Sample keys, each under the identifier the stand-in digest gives to
    its public key, and sample tables. *)
Definition demo_key_id (public_key : pystr) : pystr :=
  match encode_utf8 public_key with
  | Return message => demo_hexdigest message
  | Raise _ => []
  end.

Definition registered (name public_key status : pystr) : Key.t :=
  Key.mk (demo_key_id public_key) public_key status name None.

Definition k_farm : Key.t := registered (u "farm") (u "PEM-FARM") (u "active").
Definition k_mill : Key.t := registered (u "mill") (u "PEM-MILL") (u "new").
(** A key whose name is the identifier of [k_farm]. *)
Definition k_port : Key.t :=
  registered (demo_key_id (u "PEM-FARM")) (u "PEM-PORT") (u "inactive").

Definition tx_farm : Transaction.t :=
  Transaction.mk (u "T1") 1 0 k_farm None (u "2019-05-17T09:30:00.000Z")
    [(u "product", pair_list [(u "P", JInt 5)])] (u "00") ∅ [].
Definition tx_mill : Transaction.t :=
  Transaction.mk (u "T2") 2 0 k_mill (Some k_farm) (u "2019-05-18T09:30:00.000Z")
    [(u "product", pair_list [(u "P", JInt 5)])] (u "00") ∅ [].

Definition registry : database :=
  Database [k_farm; k_mill; k_port] [tx_farm; tx_mill]
    [TransactionInput.mk (u "T2") (u "T1") (u "P")]
    [ProductID.mk (u "ID-1") (u "P") (u "T1") (u "T2") (Some (Key.hash k_mill)) None].

Definition from_keys_page : request := Request (Some (u "/keys/")) None [].


Section Traceability.
(** [Crypto.Hash.SHA256], [Crypto.PublicKey.RSA] and
    [Crypto.Signature.PKCS1_v1_5] are libraries: their functions are
    taken as they come. *)
Variable HashObj : Type.
Variable SHA256_new : list byte -> HashObj.
Variable hexdigest : HashObj -> pystr.
Variable RsaKey : Type.
Variable RSA_importKey : pystr -> result RsaKey.
Variable PKCS1_v1_5_verify : RsaKey -> HashObj -> list byte -> bool.
(** [str(x)] on a value that is not a string, which is what a
    [CharField] lookup does to its argument. *)
Variable py_str : json -> pystr.

Definition verify_sign (self : Transaction.t) : traced bool :=
  message ← lift (canonical_bytes self);
  let calculated_hash := SHA256_new message in
  if bool_decide (Transaction.hash self ≠ hexdigest calculated_hash) then
    mret false
  else
    keyobject ← call (ImportKey (Key.public_key (Transaction.transmitter self)))
                     (RSA_importKey (Key.public_key (Transaction.transmitter self)));
    verifier ← call NewVerifier (Return keyobject);
    signature ← lift (fromhex (Transaction.sign self));
    call (Verify signature)
         (Return (PKCS1_v1_5_verify verifier calculated_hash signature)).

(** ** The transaction detail view ([views.py]) *)

(** [TransactionInput.objects.filter(...)]: the value a lookup on the
    [product] column is compared with.  [None] selects the rows where
    the column is null, and there are none. *)
Definition product_lookup (code : json) : option pystr :=
  match code with
  | JStr s => Some s
  | JNull => None
  | other => Some (py_str other)
  end.

Definition product_matches (code : json) (row : TransactionInput.t) : bool :=
  match product_lookup code with
  | Some s => bool_decide (TransactionInput.product row = s)
  | None => false
  end.

(** [filter(t_hash = hash, product = code).values_list('input', flat=True)] *)
Definition inputs_of (table : list TransactionInput.t) (hash : pystr)
    (code : json) : list pystr :=
  TransactionInput.input <$>
    filter (fun row => bool_decide (TransactionInput.t_hash row = hash)
                       && product_matches code row = true) table.

(** [filter(input = hash, product = code).values_list('t_hash', flat=True)] *)
Definition owners_of (table : list TransactionInput.t) (hash : pystr)
    (code : json) : list pystr :=
  TransactionInput.t_hash <$>
    filter (fun row => bool_decide (TransactionInput.input row = hash)
                       && product_matches code row = true) table.

(** [p[key]] on one of the dicts of a product list. *)
Definition entry_getitem (p : gmap string json) (key : string) : result json :=
  match p !! key with
  | Some v => Return v
  | None => Raise (KeyError (JStr (u key)))
  end.

(** [updated_quantity[code]]: a list or a dict is not hashable; the keys
    of the mapping are strings. *)
Definition quantity_getitem (updated_quantity : gmap pystr json)
    (code : json) : result json :=
  match code with
  | JList _ | JDict _ => Raise TypeError
  | JStr s =>
      match updated_quantity !! s with
      | Some v => Return v
      | None => Raise (KeyError code)
      end
  | _ => Raise (KeyError code)
  end.

(** The body of the loop of [make_product_list]. *)
Definition make_product (newid p : json) : result (gmap string json) :=
  code ← py_getitem p 0;
  let entry := <["product" := code]> (∅ : gmap string json) in
  if py_truthy newid then
    mret (<["newid" := newid]> entry)
  else
    value ← py_getitem p 1;
    if is_str value then mret (<["id" := value]> entry)
    else mret (<["quantity" := value]> entry).

Definition make_product_list (p_list newid : json)
    : result (list (gmap string json)) :=
  pairs ← py_iter p_list;
  for_each (make_product newid) pairs.

(** The body of the loop of [set_quantity]. *)
Definition resolve_quantity (updated_quantity : gmap pystr json)
    (p : gmap string json) : result (gmap string json) :=
  match p !! "quantity" with
  | Some JNull =>
      code ← entry_getitem p "product";
      quantity ← quantity_getitem updated_quantity code;
      mret (<["quantity" := quantity]> p)
  | _ => mret p
  end.

Definition set_quantity (p_list : list (gmap string json))
    (updated_quantity : gmap pystr json) : result (list (gmap string json)) :=
  for_each (resolve_quantity updated_quantity) p_list.

Definition set_pre_transactions (table : list TransactionInput.t)
    (p_list : list (gmap string json)) (hash : pystr)
    : result (list (gmap string json)) :=
  for_each (fun p =>
    code ← entry_getitem p "product";
    let in_list := inputs_of table hash code in
    mret (<["pre" := JList (JStr <$> in_list)]> p)) p_list.

Definition set_post_transactions (table : list TransactionInput.t)
    (p_list : list (gmap string json)) (hash : pystr)
    : result (list (gmap string json)) :=
  for_each (fun p =>
    code ← entry_getitem p "product";
    let out_list := owners_of table hash code in
    mret (<["post" := JList (JStr <$> out_list)]> p)) p_list.

(** What the view finds or puts under a key of the template context. *)
Inductive ctxval : Type :=
  | CtxObject (obj : Transaction.t)
  | CtxView
  | CtxValue (j : json)
  | CtxProducts (l : list (gmap string json)).

(** [super().get_context_data()] of a [DetailView] whose
    [context_object_name] is ['t']. *)
Definition super_get_context_data (obj : Transaction.t) : gmap string ctxval :=
  <["view" := CtxView]> (<["t" := CtxObject obj]> (<["object" := CtxObject obj]> ∅)).

(** [transaction_data[key]] *)
Definition data_getitem (data : pydict) (key : string) : result json :=
  match dict_get (u key) data with
  | Some v => Return v
  | None => Raise (KeyError (JStr (u key)))
  end.

(** Lines 152-164 of [get_context_data]: the product lists of [obj]
    added to [context], over the rows [table] of [t_inputs]. *)
Definition add_products (table : list TransactionInput.t)
    (obj : Transaction.t) (context : gmap string ctxval)
    : result (gmap string ctxval) :=
  let data := Transaction.transaction_data obj in
  let updated_quantity := Transaction.updated_quantity obj in
  let hash := Transaction.hash obj in
  newid ← (if dict_contains (u "new_id") data
           then data_getitem data "new_id" else Return JNull);
  if dict_contains (u "product") data then
    raw ← data_getitem data "product";
    product ← make_product_list raw newid;
    product ← set_quantity product updated_quantity;
    product ← set_pre_transactions table product hash;
    product ← set_post_transactions table product hash;
    mret (<["product" := CtxProducts product]> context)
  else
    raw_in ← data_getitem data "product_in";
    product_in ← make_product_list raw_in JNull;
    raw_out ← data_getitem data "product_out";
    product_out ← make_product_list raw_out newid;
    product_in ← set_quantity product_in updated_quantity;
    product_in ← set_pre_transactions table product_in hash;
    product_out ← set_post_transactions table product_out hash;
    mret (<["product_out" := CtxProducts product_out]>
           (<["product_in" := CtxProducts product_in]> context)).

(** [get_context_data] for the transaction [obj] the view was asked
    for: line 151, then the lines above. *)
Definition get_context_data (table : list TransactionInput.t)
    (obj : Transaction.t) : traced (gmap string ctxval) :=
  let context := super_get_context_data obj in
  valid ← verify_sign obj;
  let context := <["sign" := CtxValue (JBool valid)]> context in
  lift (add_products table obj context).

(** ** The canonical form as the specification words it

    A compact object: members [key:value] joined by commas, nothing
    else between the braces. *)
Fixpoint join (sep : pystr) (parts : list pystr) : pystr :=
  match parts with
  | [] => []
  | [x] => x
  | x :: r => x ++ sep ++ join sep r
  end.

Definition compact_object (members : list (pystr * pystr)) : pystr :=
  u "{" ++ join (u ",") ((fun m => m.1 ++ u ":" ++ m.2) <$> members) ++ u "}".

Definition quoted (s : pystr) : pystr := [34] ++ s ++ [34].

Definition compact_value (j : json) : pystr := dumps (u ",") (u ":") j.

(** type, mode, transmitter, receiver when there is one, the raw time
    stamp, the payload with its keys in order. *)
Definition spec_canonical_text (tx : Transaction.t) : pystr :=
  compact_object (
    [(quoted (u "type"), int_repr (Transaction.type tx));
     (quoted (u "mode"), int_repr (Transaction.mode tx));
     (quoted (u "transmitter"),
      encode_basestring_ascii (Key.hash (Transaction.transmitter tx)))]
    ++ match Transaction.receiver tx with
       | Some r => [(quoted (u "receiver"), encode_basestring_ascii (Key.hash r))]
       | None => []
       end
    ++ [(quoted (u "timestamp"),
         encode_basestring_ascii (Transaction.raw_client_timestamp tx));
        (quoted (u "data"),
         compact_object
           ((fun kv => (encode_basestring_ascii kv.1, compact_value kv.2))
              <$> sorted_items (Transaction.transaction_data tx)))]).

(** A character that [json.dumps] writes as it is. *)
Definition plain_char (c : N) : bool :=
  (32 <=? c) && (c <=? 126) && negb (c =? 34) && negb (c =? 92).

(** Equal content: the same values, a mapping's items in any order. *)
Fixpoint same_content (a b : json) : bool :=
  match a, b with
  | JNull, JNull => true
  | JBool x, JBool y => bool_decide (x = y)
  | JInt x, JInt y => bool_decide (x = y)
  | JFloat x, JFloat y => bool_decide (x = y)
  | JStr x, JStr y => bool_decide (x = y)
  | JList x, JList y =>
      (fix all2 (x y : list json) : bool :=
         match x, y with
         | [], [] => true
         | a :: x', b :: y' => same_content a b && all2 x' y'
         | _, _ => false
         end) x y
  | JDict x, JDict y =>
      bool_decide (length x = length y) &&
      (fix each (x : list (pystr * json)) : bool :=
         match x with
         | [] => true
         | (k, v) :: x' =>
             match dict_get k y with
             | Some w => same_content v w
             | None => false
             end && each x'
         end) x
  | _, _ => false
  end.

(** Hex text and the bytes it stands for: pairs of hex digits, with
    white space allowed around the pairs and not inside them. *)
Inductive hex_text : pystr -> list byte -> Prop :=
  | hex_text_nil : hex_text [] []
  | hex_text_space c s bs :
      is_space c = true -> hex_text s bs -> hex_text (c :: s) bs
  | hex_text_pair c d hi lo s bs :
      hex_value c = Some hi -> hex_value d = Some lo -> hex_text s bs ->
      hex_text (c :: d :: s) (byte_of (16 * hi + lo) :: bs).

(** ** What each loop does to one entry *)

(** The entry that [make_product_list] builds from a well-formed pair. *)
Definition made (newid : json) (cv : pystr * json) : gmap string json :=
  let entry := <["product" := JStr cv.1]> (∅ : gmap string json) in
  if py_truthy newid then <["newid" := newid]> entry
  else if is_str cv.2 then <["id" := cv.2]> entry
  else <["quantity" := cv.2]> entry.

Definition quantity_step (updated_quantity : gmap pystr json)
    (e e' : gmap string json) : Prop :=
  (e !! "quantity" <> Some JNull /\ e' = e)
  \/ (e !! "quantity" = Some JNull /\
      exists code quantity,
        e !! "product" = Some code
        /\ quantity_getitem updated_quantity code = Return quantity
        /\ e' = <["quantity" := quantity]> e).

Definition pre_step (table : list TransactionInput.t) (hash : pystr)
    (e e' : gmap string json) : Prop :=
  exists code, e !! "product" = Some code
    /\ e' = <["pre" := JList (JStr <$> inputs_of table hash code)]> e.

Definition post_step (table : list TransactionInput.t) (hash : pystr)
    (e e' : gmap string json) : Prop :=
  exists code, e !! "product" = Some code
    /\ e' = <["post" := JList (JStr <$> owners_of table hash code)]> e.

(** The new identifier [get_context_data] reads off the payload. *)
Definition newid_of (data : pydict) : json :=
  default JNull (dict_get (u "new_id") data).

(** What quantity resolution leaves in the entry [e] built from the pair
    [p], when the pair's value is taken as a quantity. *)
Definition quantity_resolved (updated_quantity : gmap pystr json)
    (p : json) (e : gmap string json) : Prop :=
  forall value, py_getitem p 1 = Return value -> is_str value = false ->
    (value <> JNull -> e !! "quantity" = Some value)
    /\ (value = JNull ->
        exists code quantity,
          py_getitem p 0 = Return (JStr code)
          /\ updated_quantity !! code = Some quantity
          /\ e !! "quantity" = Some quantity).

Definition quantity_kept (p : json) (e : gmap string json) : Prop :=
  forall value, py_getitem p 1 = Return value -> is_str value = false ->
    e !! "quantity" = Some value.

(** An entry that carries [newid] and neither an [id] nor a [quantity]. *)
Definition minted (newid : json) (e : gmap string json) : Prop :=
  e !! "newid" = Some newid /\ e !! "id" = None /\ e !! "quantity" = None.

Definition has_product (e : gmap string json) : Prop :=
  is_Some (e !! "product").

(** The entry [e] built from the pair [p] holds the predecessors, or the
    successors, of the transaction [hash] for the product code of [p]. *)
Definition has_pre (table : list TransactionInput.t) (hash : pystr)
    (p : json) (e : gmap string json) : Prop :=
  exists code,
    py_getitem p 0 = Return code
    /\ e !! "product" = Some code
    /\ e !! "pre" = Some (JList (JStr <$> inputs_of table hash code)).

Definition has_post (table : list TransactionInput.t) (hash : pystr)
    (p : json) (e : gmap string json) : Prop :=
  exists code,
    py_getitem p 0 = Return code
    /\ e !! "product" = Some code
    /\ e !! "post" = Some (JList (JStr <$> owners_of table hash code)).

(** The entry [e] built from the pair [p] holds the product code of [p]
    and one more key: [newid], [id] or [quantity]. *)
Definition one_identification (newid p : json) (e : gmap string json) : Prop :=
  exists code,
    py_getitem p 0 = Return code
    /\ e !! "product" = Some code
    /\ size e = 2%nat
    /\ ((e !! "newid" = Some newid /\ e !! "id" = None
         /\ e !! "quantity" = None)
        \/ (exists s, e !! "newid" = None /\ e !! "id" = Some (JStr s)
              /\ e !! "quantity" = None)
        \/ (exists q, is_str q = false /\ e !! "newid" = None
              /\ e !! "id" = None /\ e !! "quantity" = Some q)).

(** ** Text that is plain ASCII *)

Definition ascii_text (s : pystr) : Prop := Forall (fun c => c < 128) s.

(** The texts of the floats inside a value are ASCII, as what
    [float.__repr__] writes is. *)
Fixpoint floats_ascii (j : json) : bool :=
  match j with
  | JFloat r => forallb (fun c => c <? 128) r
  | JList l => forallb floats_ascii l
  | JDict d => forallb (fun kv => let '(_, v) := kv in floats_ascii v) d
  | _ => true
  end.

(** [unique_together = (('t_hash', 'input', 'product'),)] *)
Definition unique_together (table : list TransactionInput.t) : Prop :=
  NoDup ((fun row => (TransactionInput.t_hash row, TransactionInput.input row,
                      TransactionInput.product row)) <$> table).

(** ** The keys ([models.py] and the key views of [views.py]) *)

Definition key_identifier (public_key : pystr) : result pystr :=
  message ← encode_utf8 public_key;
  mret (hexdigest (SHA256_new message)).

(** [Key.save]: the key as it is after the call, and the table. *)
Definition Key_save (self : Key.t) (table : list Key.t)
    : result (Key.t * list Key.t) :=
  hash ← key_identifier (Key.public_key self);
  let self := Key.mk hash (Key.public_key self) (Key.current_status self)
                (Key.name self) (Key.description self) in
  mret (self, upsert self table).

(** [ActivateKey].  [ObjectDoesNotExist] is not a name of [views.py]
    (neither imported there nor among the names [models.py] gives to
    [from .models import *]): an exception that reaches the [except]
    clause makes the clause itself raise [NameError]. *)
Definition ActivateKey (db : database) (r : request) (hash : pystr)
    : view_result :=
  match Key_get (keys db) hash with
  | None => NameError (u "ObjectDoesNotExist")
  | Some k =>
      let k := with_status k (u "active") in
      match Key_save k (keys db) with
      | Raise _ => NameError (u "ObjectDoesNotExist")
      | Return (k, table) =>
          Redirected (with_keys db table)
            (add_message r SUCCESS
               (u "La clave '" ++ Key.name k ++ u "' se ha activado correctamente."))
            (referer r)
      end
  end.

Definition DeactivateKey (db : database) (r : request) (hash : pystr)
    : view_result :=
  match Key_get (keys db) hash with
  | None => NameError (u "ObjectDoesNotExist")
  | Some k =>
      let k := with_status k (u "inactive") in
      match Key_save k (keys db) with
      | Raise _ => NameError (u "ObjectDoesNotExist")
      | Return (k, table) =>
          Redirected (with_keys db table)
            (add_message r SUCCESS
               (u "La clave '" ++ Key.name k ++ u "' se ha desactivado correctamente."))
            (referer r)
      end
  end.

Definition RemoveKey (db : database) (r : request) (hash : pystr)
    : view_result :=
  match Key_get (keys db) hash with
  | None => NameError (u "ObjectDoesNotExist")
  | Some k =>
      if bool_decide (Key.current_status k <> u "new") then
        Redirected db
          (add_message r ERROR
             (u "No se pueden eliminar claves que ya han sido activadas."))
          (referer r)
      else
        Redirected (Key_delete (Key.hash k) db)
          (add_message r SUCCESS
             (u "La clave '" ++ Key.name k ++ u "' se ha eliminado correctamente."))
          (referer r)
  end.

(** [NewKey]: [form_valid] on the cleaned values of the form's fields. *)
Definition NewKey_form_valid (db : database) (r : request)
    (name public_key current_status : pystr) (description : option pystr)
    : view_result :=
  let msgs := add_message r SUCCESS (u "Se ha registrado la nueva clave.") in
  match Key_save (Key.mk [] public_key current_status name description) (keys db) with
  | Raise e => Uncaught e
  | Return (k, table) =>
      Redirected (with_keys db table) msgs (Key_get_absolute_url k)
  end.

(** [ModifyKey]: the object is looked up by its [hash], then [form_valid]
    on the cleaned values of the form's fields. *)
Definition ModifyKey_form_valid (db : database) (r : request) (hash : pystr)
    (name : pystr) (description : option pystr) : view_result :=
  match Key_get (keys db) hash with
  | None => Http404
  | Some k =>
      let msgs := add_message r SUCCESS (u "Se ha actualizado la informaci" ++ [243] ++ u "n.") in
      let k := Key.mk (Key.hash k) (Key.public_key k) (Key.current_status k)
                 name description in
      match Key_save k (keys db) with
      | Raise e => Uncaught e
      | Return (k, table) =>
          Redirected (with_keys db table) msgs (Key_get_absolute_url k)
      end
  end.

(** [KeySearch] *)
Definition KeySearch (db : database) (r : request) : view_result :=
  match GET_sb r with
  | Some searchbox =>
      if bool_decide (searchbox <> []) then
        if bool_decide (filter (fun k => Key.hash k = searchbox) (keys db) <> []) then
          Redirected db (messages r)
            (Reverse (u "key_details") [(u "hash", searchbox)])
        else
          match filter (fun k => Key.name k = searchbox) (keys db) with
          | k0 :: _ =>
              Redirected db (messages r)
                (Reverse (u "key_details") [(u "hash", Key.hash k0)])
          | [] =>
              Redirected db
                (add_message r ERROR (u "No se ha encontrado la clave."))
                (Reverse (u "keys") [])
          end
      else Redirected db (messages r) (Reverse (u "keys") [])
  | None => Redirected db (messages r) (Reverse (u "keys") [])
  end.

(** The [queryset] of the three list views. *)
Definition ActiveKeysList (db : database) : list Key.t :=
  filter (fun k => Key.current_status k = u "active") (keys db).
Definition PendingKeysList (db : database) : list Key.t :=
  filter (fun k => Key.current_status k = u "new") (keys db).
Definition InactiveKeysList (db : database) : list Key.t :=
  filter (fun k => Key.current_status k = u "inactive") (keys db).

(** The table invariants: one row for each identifier, which is the
    digest of the row's public key. *)
Definition keys_unique (table : list Key.t) : Prop :=
  NoDup (Key.hash <$> table).

Definition keys_consistent (table : list Key.t) : Prop :=
  Forall (fun k => key_identifier (Key.public_key k) = Return (Key.hash k)) table.


(** * Properties *)

(** ** String order *)

Lemma str_compare_refl a : str_compare a a = Eq.
Proof. induction a as [|x a IH]; simpl; [done|]. by rewrite N.compare_refl. Qed.

Lemma str_compare_eq a b : str_compare a b = Eq -> a = b.
Proof.
  revert b. induction a as [|x a IH]; intros [|y b]; simpl; try done.
  destruct (N.compare_spec x y) as [->| |]; try done.
  intros H. by rewrite (IH _ H).
Qed.

Lemma str_compare_antisym a b : str_compare b a = CompOpp (str_compare a b).
Proof.
  revert b. induction a as [|x a IH]; intros [|y b]; simpl; try done.
  rewrite (N.compare_antisym x y).
  destruct (N.compare x y); simpl; auto.
Qed.

Lemma str_lt_trans a b c : str_lt a b -> str_lt b c -> str_lt a c.
Proof.
  unfold str_lt. revert b c.
  induction a as [|x a IH]; intros [|y b] [|z c]; simpl; try done.
  destruct (N.compare_spec x y) as [->| |]; try done.
  - destruct (N.compare_spec y z) as [->| |]; try done. apply IH.
  - destruct (N.compare_spec y z) as [->| |]; try done; intros _ _.
    + by apply N.compare_lt_iff in H as ->.
    + assert (x < z) as ->%N.compare_lt_iff by lia. done.
Qed.

Lemma str_le_lt_or_eq a b : str_le a b <-> str_lt a b \/ a = b.
Proof.
  unfold str_le, str_lt. split.
  - destruct (str_compare a b) eqn:E; [|by left|done].
    right. by apply str_compare_eq.
  - intros [->| ->]; [done|]. by rewrite str_compare_refl.
Qed.

Lemma str_lt_irrefl a : ~ str_lt a a.
Proof. unfold str_lt. by rewrite str_compare_refl. Qed.

Global Instance str_le_trans : Transitive str_le.
Proof.
  intros a b c [Hab| ->]%str_le_lt_or_eq [Hbc| ->]%str_le_lt_or_eq;
    apply str_le_lt_or_eq; eauto using str_lt_trans.
Qed.

Global Instance str_le_total : Total str_le.
Proof.
  intros a b. unfold str_le. rewrite (str_compare_antisym a b).
  destruct (str_compare a b); simpl; auto.
Qed.

Lemma str_le_antisym a b : str_le a b -> str_le b a -> a = b.
Proof.
  intros [Hab| ->]%str_le_lt_or_eq [Hba|Heq]%str_le_lt_or_eq; try done.
  destruct (str_lt_irrefl a). eauto using str_lt_trans.
Qed.

Global Instance item_le_trans : Transitive item_le.
Proof. intros a b c. unfold item_le. apply str_le_trans. Qed.

Global Instance item_le_total : Total item_le.
Proof. intros a b. unfold item_le. apply str_le_total. Qed.

(** ** Dictionaries and sorting *)

Lemma dict_set_fresh k v d : k ∉ dict_keys d -> dict_set k v d = d ++ [(k, v)].
Proof.
  unfold dict_keys. induction d as [|[k' v'] d IH]; simpl; [done|].
  rewrite not_elem_of_cons. intros [Hne Hnin].
  rewrite decide_False by done. by rewrite IH.
Qed.

Lemma OrderedDict_distinct l : NoDup l.*1 -> OrderedDict l = l.
Proof.
  unfold OrderedDict.
  enough (forall acc, NoDup (acc ++ l).*1 ->
            fold_left (fun d kv => dict_set kv.1 kv.2 d) l acc = acc ++ l)
    as H by (intros Hl; by rewrite (H [])).
  induction l as [|[k v] l IH]; intros acc Hnd; simpl.
  { by rewrite app_nil_r. }
  rewrite dict_set_fresh.
  - rewrite IH; rewrite <-app_assoc; done.
  - rewrite fmap_app in Hnd. apply NoDup_app in Hnd as (_ & Hnd & _).
    intros Hin. apply (Hnd k Hin). simpl. by left.
Qed.

Lemma sorted_items_perm d : sorted_items d ≡ₚ d.
Proof. apply merge_sort_Permutation. Qed.

Lemma sorted_items_wf d : dict_wf d -> dict_wf (sorted_items d).
Proof. unfold dict_wf, dict_keys. by rewrite sorted_items_perm. Qed.

Lemma item_le_keys_sorted l :
  StronglySorted item_le l -> NoDup l.*1 -> StronglySorted str_lt l.*1.
Proof.
  induction 1 as [|x l Hl IH Hx]; simpl; [constructor|].
  rewrite NoDup_cons. intros [Hnin Hnd]. constructor; [by apply IH|].
  apply Forall_fmap, Forall_forall. intros y Hy.
  rewrite Forall_forall in Hx. specialize (Hx y Hy).
  apply str_le_lt_or_eq in Hx as [Hlt|Heq]; [done|].
  destruct Hnin. rewrite Heq. apply list_elem_of_fmap. eauto.
Qed.

Lemma sorted_items_keys_sorted d :
  dict_wf d -> StronglySorted str_lt (dict_keys (sorted_items d)).
Proof.
  intros Hd. apply item_le_keys_sorted.
  - apply StronglySorted_merge_sort; apply _.
  - by apply sorted_items_wf.
Qed.

Lemma dict_wf_functional d k v1 v2 :
  dict_wf d -> (k, v1) ∈ d -> (k, v2) ∈ d -> v1 = v2.
Proof.
  unfold dict_wf, dict_keys. intros Hd Hy1 Hy2.
  induction d as [|[a b] d IH]; [by inv Hy1|].
  simpl in Hd. apply NoDup_cons in Hd as [Hnin Hd].
  inv Hy1; inv Hy2; try done.
  - destruct Hnin. apply list_elem_of_fmap. by eexists (_, _).
  - destruct Hnin. apply list_elem_of_fmap. by eexists (_, _).
  - by apply IH.
Qed.

(** Two dicts with the same items sort to the same list. *)
Lemma sorted_items_order_independent d1 d2 :
  dict_wf d1 -> d1 ≡ₚ d2 -> sorted_items d1 = sorted_items d2.
Proof.
  intros Hd Hp. apply (StronglySorted_unique_strong item_le).
  - intros x1 x2 H1 H2 Hle Hge.
    assert (x1.1 = x2.1) as Hk by (by apply str_le_antisym).
    rewrite sorted_items_perm in H1. rewrite sorted_items_perm, <-Hp in H2.
    destruct x1 as [k v1], x2 as [k' v2]; simpl in *; subst k'.
    f_equal. by eapply dict_wf_functional.
  - apply StronglySorted_merge_sort; apply _.
  - apply StronglySorted_merge_sort; apply _.
  - by rewrite !sorted_items_perm.
Qed.

(** ** The canonical encoding *)

Lemma dumps_JDict i k d :
  dumps i k (JDict d) =
  u "{" ++ join i ((fun kv => encode_basestring_ascii kv.1 ++ k ++ dumps i k kv.2)
                     <$> d) ++ u "}".
Proof.
  simpl. do 2 f_equal.
  induction d as [|[k1 v1] d IH]; [done|].
  destruct d as [|[k2 v2] d]; [done|].
  rewrite IH. simpl. by rewrite <-!app_assoc.
Qed.

Lemma encode_plain s :
  forallb plain_char s = true -> encode_basestring_ascii s = quoted s.
Proof.
  intros Hs. unfold encode_basestring_ascii, quoted. do 2 f_equal.
  induction s as [|c s IH]; [done|].
  simpl in Hs. apply andb_prop in Hs as [Hc Hs].
  rewrite fmap_cons, concat_cons, (IH Hs).
  enough (escape_char c = [c]) as -> by done.
  unfold plain_char in Hc. unfold escape_char.
  repeat match goal with
         | H : _ && _ = true |- _ => apply andb_prop in H as [? ?]
         | H : negb _ = true |- _ => apply negb_true_iff in H
         end.
  repeat match goal with
         | H : (c =? _) = false |- _ => rewrite H; clear H
         end.
  assert (32 <= c) by by apply N.leb_le.
  rewrite !(proj2 (N.eqb_neq c _)) by lia.
  by replace ((32 <=? c) && (c <=? 126)) with true
    by (symmetry; by apply andb_true_intro).
Qed.

Lemma signed_fields_distinct tx : NoDup (signed_fields tx).*1.
Proof.
  unfold signed_fields. destruct (Transaction.receiver tx); simpl;
    apply (bool_decide_unpack _); by vm_compute.
Qed.

Lemma serialized_transaction_spec tx :
  dict_wf (Transaction.transaction_data tx) ->
  serialized_transaction tx = spec_canonical_text tx.
Proof.
  intros Hd. unfold serialized_transaction, spec_canonical_text.
  rewrite OrderedDict_distinct by apply signed_fields_distinct.
  rewrite dumps_JDict. unfold compact_object at 1. do 2 f_equal.
  unfold signed_fields.
  rewrite (OrderedDict_distinct (sorted_items _)) by by apply sorted_items_wf.
  destruct (Transaction.receiver tx); cbn [app fmap list_fmap fst snd];
    rewrite dumps_JDict; unfold compact_object, compact_value;
    rewrite <-list_fmap_compose; reflexivity.
Qed.

(** C2.  The text that is hashed is the compact serialization of type,
    mode, transmitter, receiver when present, raw time stamp and payload,
    in this order; the payload's keys come in increasing order and are
    the payload's own; a time stamp of plain characters is written as it
    is stored. *)
Theorem canonical_encoding_layout (tx : Transaction.t) :
  dict_wf (Transaction.transaction_data tx) ->
  serialized_transaction tx = spec_canonical_text tx
  /\ canonical_bytes tx = encode_utf8 (spec_canonical_text tx)
  /\ StronglySorted str_lt (dict_keys (sorted_items (Transaction.transaction_data tx)))
  /\ sorted_items (Transaction.transaction_data tx) ≡ₚ Transaction.transaction_data tx
  /\ (forallb plain_char (Transaction.raw_client_timestamp tx) = true ->
      encode_basestring_ascii (Transaction.raw_client_timestamp tx)
      = quoted (Transaction.raw_client_timestamp tx)).
Proof.
  intros Hd. split_and!.
  - by apply serialized_transaction_spec.
  - unfold canonical_bytes. by rewrite serialized_transaction_spec.
  - by apply sorted_items_keys_sorted.
  - apply sorted_items_perm.
  - apply encode_plain.
Qed.

(** C3, as the code has it.  Two transactions that agree on every signed
    field and whose payloads hold the same top-level items, in any order,
    have the same canonical bytes. *)
Theorem canonical_bytes_key_order (t1 t2 : Transaction.t) :
  dict_wf (Transaction.transaction_data t1) ->
  Transaction.transaction_data t1 ≡ₚ Transaction.transaction_data t2 ->
  Transaction.type t1 = Transaction.type t2 ->
  Transaction.mode t1 = Transaction.mode t2 ->
  Key.hash (Transaction.transmitter t1) = Key.hash (Transaction.transmitter t2) ->
  Key.hash <$> Transaction.receiver t1 = Key.hash <$> Transaction.receiver t2 ->
  Transaction.raw_client_timestamp t1 = Transaction.raw_client_timestamp t2 ->
  canonical_bytes t1 = canonical_bytes t2.
Proof.
  intros Hd Hp Hty Hmo Htr Hre Hts.
  unfold canonical_bytes, serialized_transaction, signed_fields.
  rewrite (sorted_items_order_independent _ _ Hd Hp), Hty, Hmo, Htr, Hts.
  destruct (Transaction.receiver t1), (Transaction.receiver t2);
    simplify_eq/=; by rewrite ?Hre.
Qed.

(** ** Signature verification *)

Lemma hex_digit_not_space c hi : hex_value c = Some hi -> is_space c = false.
Proof.
  unfold hex_value, is_space. intros H.
  destruct (c =? 32) eqn:E1; [apply N.eqb_eq in E1; by subst|].
  destruct ((9 <=? c) && (c <=? 13)) eqn:E2; [|done].
  apply andb_prop in E2 as [?%N.leb_le ?%N.leb_le].
  repeat case_match; try done;
    repeat match goal with
           | H : _ && _ = true |- _ => apply andb_prop in H as [?%N.leb_le ?%N.leb_le]
           end; lia.
Qed.

Lemma fromhex_hex_text s bs : hex_text s bs -> fromhex s = Return bs.
Proof.
  induction 1 as [|c s bs Hc _ IH|c d hi lo s bs Hc Hd _ IH]; simpl.
  - done.
  - by rewrite Hc.
  - by rewrite (hex_digit_not_space _ _ Hc), Hc, Hd, IH.
Qed.

Lemma fromhex_outcome s :
  (exists bs, fromhex s = Return bs /\ hex_text s bs)
  \/ (fromhex s = Raise ValueError /\ forall bs, ~ hex_text s bs).
Proof.
  remember (length s) as n eqn:Hn. revert s Hn.
  induction n as [n IH] using lt_wf_ind. intros [|c s] Hn.
  { left. exists []. split; [done|constructor]. }
  simpl in Hn. simpl. destruct (is_space c) eqn:Hsp.
  { destruct (IH (length s) ltac:(lia) s eq_refl) as [(bs & -> & Hbs)|[-> Hno]].
    - left. exists bs. split; [done|by constructor].
    - right. split; [done|]. intros bs Hbs. inv Hbs.
      + by eapply Hno.
      + by erewrite hex_digit_not_space in Hsp. }
  destruct (hex_value c) as [hi|] eqn:Hc; cycle 1.
  { right. split; [done|]. intros bs Hbs. inv Hbs; congruence. }
  destruct s as [|d s].
  { right. split; [done|]. intros bs Hbs. inv Hbs; congruence. }
  destruct (hex_value d) as [lo|] eqn:Hd; cycle 1.
  { right. split; [done|]. intros bs Hbs. inv Hbs; congruence. }
  simpl in Hn.
  destruct (IH (length s) ltac:(lia) s eq_refl) as [(bs & -> & Hbs)|[-> Hno]].
  - left. eexists. split; [done|by econstructor].
  - right. split; [done|]. intros bs Hbs. inv Hbs; [congruence|].
    by eapply Hno.
Qed.

Lemma fromhex_not_hex_text s :
  (forall bs, ~ hex_text s bs) -> fromhex s = Raise ValueError.
Proof.
  intros Hno. destruct (fromhex_outcome s) as [(bs & _ & Hbs)|[H _]]; [|done].
  by destruct (Hno bs).
Qed.

(** C1.  When the stored identifier is not the hex digest of the
    canonical bytes, [verify_sign] answers [False] without a single call
    into the RSA library, whatever the stored signature is and whatever
    the verifier would have said of it. *)
Theorem verify_sign_hash_mismatch (self : Transaction.t) (message : list byte) :
  canonical_bytes self = Return message ->
  Transaction.hash self <> hexdigest (SHA256_new message) ->
  verify_sign self = Traced [] (Return false).
Proof.
  intros Hm Hne. unfold verify_sign. rewrite Hm.
  unfold mbind, traced_bind, lift; simpl.
  by rewrite bool_decide_true.
Qed.

(** C4, as the code has it.  With a matching identifier and a key that
    imports, a signature field that is hex text is decoded and handed to
    the verifier, whose verdict is returned; a signature field that is
    not hex text makes [bytes.fromhex] raise [ValueError], after the key
    was imported and before the verifier is asked. *)
Theorem verify_sign_signature_text (self : Transaction.t)
    (message : list byte) (keyobject : RsaKey) :
  let pem := Key.public_key (Transaction.transmitter self) in
  canonical_bytes self = Return message ->
  Transaction.hash self = hexdigest (SHA256_new message) ->
  RSA_importKey pem = Return keyobject ->
  (forall signature, hex_text (Transaction.sign self) signature ->
     verify_sign self =
     Traced [ImportKey pem; NewVerifier; Verify signature]
            (Return (PKCS1_v1_5_verify keyobject (SHA256_new message) signature)))
  /\ ((forall signature, ~ hex_text (Transaction.sign self) signature) ->
      verify_sign self = Traced [ImportKey pem; NewVerifier] (Raise ValueError)).
Proof.
  intros pem Hm Hh Hk. unfold verify_sign. rewrite Hm.
  unfold mbind, traced_bind, lift, call; simpl.
  rewrite bool_decide_false by (intros Hne; by apply Hne).
  fold pem. rewrite Hk. simpl. split.
  - intros signature Hs. by rewrite (fromhex_hex_text _ _ Hs).
  - intros Hno. by rewrite (fromhex_not_hex_text _ Hno).
Qed.

(** ** Loops *)

Lemma for_each_Return {A B} (f : A -> result B) l l' :
  for_each f l = Return l' <-> Forall2 (fun x y => f x = Return y) l l'.
Proof.
  revert l'. induction l as [|x l IH]; intros l'; simpl.
  { split; [intros [= <-]; constructor|by inversion 1]. }
  destruct (f x) as [y|e] eqn:Hx; [|split; [done|inversion 1; congruence]].
  destruct (for_each f l) as [ys|e]; split.
  - intros [= <-]. constructor; [done|]. by apply IH.
  - inversion 1 as [|? y' ? ys' Hy Hys]; subst.
    apply IH in Hys. congruence.
  - done.
  - inversion 1 as [|? y' ? ys' Hy Hys]; subst. by apply IH in Hys.
Qed.

Lemma for_each_fmap_Return {A B C} (g : C -> A) (f : A -> result B)
    (h : C -> B) l :
  (forall x, x ∈ l -> f (g x) = Return (h x)) ->
  for_each f (g <$> l) = Return (h <$> l).
Proof.
  intros H. apply for_each_Return, Forall2_fmap, Forall2_same_length_lookup.
  split; [done|]. intros i x y Hx Hy. simplify_eq.
  apply H. by eapply list_elem_of_lookup_2.
Qed.

Lemma for_each_Raise {A B} (f : A -> result B) l e :
  for_each f l = Raise e -> exists x, x ∈ l /\ f x = Raise e.
Proof.
  induction l as [|x l IH]; simpl; [done|].
  destruct (f x) as [y|e'] eqn:Hx.
  - destruct (for_each f l) as [ys|e'']; [done|]. intros [= <-].
    destruct IH as (x' & ? & ?); [done|]. exists x'. split; [by right|done].
  - intros [= <-]. exists x. split; [by left|done].
Qed.

Lemma for_each_raises {A B} (f : A -> result B) l x :
  x ∈ l -> raises (f x) -> raises (for_each f l).
Proof.
  intros Hx [e He]. destruct (for_each f l) as [ys|e'] eqn:Hl; [|by eexists].
  apply for_each_Return in Hl.
  apply list_elem_of_lookup in Hx as [i Hi].
  destruct (Forall2_lookup_l _ _ _ _ _ Hl Hi) as (y & _ & Hy). congruence.
Qed.

Lemma Forall2_compose {A B C} (P : A -> B -> Prop) (Q : B -> C -> Prop) l k m :
  Forall2 P l k -> Forall2 Q k m ->
  Forall2 (fun x z => exists y, P x y /\ Q y z) l m.
Proof.
  intros H. revert m. induction H; inversion 1; subst; constructor; eauto.
Qed.

(** ** The product lists *)

(** Unfold the monad's operations and nothing else: the entries are
    finite maps with literal keys, which should stay folded. *)
Ltac run :=
  unfold mbind, mret, result_bind, result_ret in *; cbv beta iota in *.

Lemma make_product_Return newid p e :
  make_product newid p = Return e ->
  exists code, py_getitem p 0 = Return code /\
    ((py_truthy newid = true /\ e = <["newid" := newid]> (<["product" := code]> ∅))
     \/ (py_truthy newid = false /\ exists value,
           py_getitem p 1 = Return value /\
           ((is_str value = true /\ e = <["id" := value]> (<["product" := code]> ∅))
            \/ (is_str value = false
                /\ e = <["quantity" := value]> (<["product" := code]> ∅))))).
Proof.
  unfold make_product. destruct (py_getitem p 0) as [code|]; [|done]. run.
  intros H. exists code. split; [done|]. revert H.
  destruct (py_truthy newid); [left; by simplify_eq|right].
  split; [done|]. revert H.
  destruct (py_getitem p 1) as [value|]; [|done]. run.
  exists value. split; [done|]. revert H.
  destruct (is_str value); intros; simplify_eq; auto.
Qed.

Lemma make_product_list_Return p_list newid es :
  make_product_list p_list newid = Return es ->
  exists pairs, py_iter p_list = Return pairs
    /\ Forall2 (fun p e => make_product newid p = Return e) pairs es.
Proof.
  unfold make_product_list. destruct (py_iter p_list) as [pairs|]; [|done].
  run. intros H%for_each_Return. eauto.
Qed.

Lemma make_product_pair newid cv :
  make_product newid (JList [JStr cv.1; cv.2]) = Return (made newid cv).
Proof.
  unfold make_product, made. cbn [py_getitem lookup list_lookup]. run.
  destruct (py_truthy newid); [done|]. by destruct (is_str cv.2).
Qed.

Lemma make_product_list_pairs newid l :
  make_product_list (pair_list l) newid = Return (made newid <$> l).
Proof.
  unfold make_product_list, pair_list. cbn [py_iter]. run.
  apply for_each_fmap_Return. intros cv _. apply make_product_pair.
Qed.

Lemma set_quantity_Return es uq es' :
  set_quantity es uq = Return es' -> Forall2 (quantity_step uq) es es'.
Proof.
  intros H%for_each_Return. eapply Forall2_impl; [done|].
  intros e e' He. unfold resolve_quantity in He. unfold quantity_step. run.
  destruct (e !! "quantity") as [q|] eqn:Hq; [|left; by simplify_eq].
  destruct q; try (left; by simplify_eq).
  right. split; [done|]. unfold entry_getitem in He.
  destruct (e !! "product") as [code|]; [|done].
  destruct (quantity_getitem uq code) as [quantity|] eqn:Hg; [|done].
  exists code, quantity. by simplify_eq.
Qed.

Lemma set_pre_transactions_Return table es hash es' :
  set_pre_transactions table es hash = Return es' ->
  Forall2 (pre_step table hash) es es'.
Proof.
  intros H%for_each_Return. eapply Forall2_impl; [done|].
  intros e e' He. cbv beta in He. unfold pre_step, entry_getitem in *. run.
  destruct (e !! "product") as [code|]; [|done].
  exists code. by simplify_eq.
Qed.

Lemma set_post_transactions_Return table es hash es' :
  set_post_transactions table es hash = Return es' ->
  Forall2 (post_step table hash) es es'.
Proof.
  intros H%for_each_Return. eapply Forall2_impl; [done|].
  intros e e' He. cbv beta in He. unfold post_step, entry_getitem in *. run.
  destruct (e !! "product") as [code|]; [|done].
  exists code. by simplify_eq.
Qed.

(** ** [get_context_data] *)

Lemma get_context_data_outcome table obj :
  outcome (get_context_data table obj) =
  match outcome (verify_sign obj) with
  | Return valid =>
      add_products table obj
        (<["sign" := CtxValue (JBool valid)]> (super_get_context_data obj))
  | Raise e => Raise e
  end.
Proof.
  unfold get_context_data, mbind, traced_bind.
  by destruct (outcome (verify_sign obj)).
Qed.

Lemma newid_read data :
  (if dict_contains (u "new_id") data
   then data_getitem data "new_id" else Return JNull)
  = Return (newid_of data).
Proof.
  unfold dict_contains, data_getitem, newid_of.
  by destruct (dict_get (u "new_id") data).
Qed.

Lemma add_products_single table obj context ctx raw :
  let data := Transaction.transaction_data obj in
  dict_get (u "product") data = Some raw ->
  add_products table obj context = Return ctx ->
  exists pairs es,
    py_iter raw = Return pairs
    /\ ctx = <["product" := CtxProducts es]> context
    /\ Forall2 (fun p e => exists e0 e1 e2,
                  make_product (newid_of data) p = Return e0
                  /\ quantity_step (Transaction.updated_quantity obj) e0 e1
                  /\ pre_step table (Transaction.hash obj) e1 e2
                  /\ post_step table (Transaction.hash obj) e2 e) pairs es.
Proof.
  intros data Hraw. unfold add_products. fold data.
  rewrite newid_read. unfold dict_contains, data_getitem. rewrite Hraw. run.
  destruct (make_product_list raw (newid_of data)) as [l0|] eqn:H0; [|done].
  destruct (set_quantity l0 _) as [l1|] eqn:H1; [|done].
  destruct (set_pre_transactions table l1 _) as [l2|] eqn:H2; [|done].
  destruct (set_post_transactions table l2 _) as [l3|] eqn:H3; [|done].
  intros [= <-].
  apply make_product_list_Return in H0 as (pairs & Hit & H0).
  apply set_quantity_Return in H1. apply set_pre_transactions_Return in H2.
  apply set_post_transactions_Return in H3.
  exists pairs, l3. split_and!; [done..|].
  pose proof (Forall2_compose _ _ _ _ _ H0 H1) as H01.
  pose proof (Forall2_compose _ _ _ _ _ H01 H2) as H012.
  pose proof (Forall2_compose _ _ _ _ _ H012 H3) as H.
  eapply Forall2_impl; [exact H|].
  intros p e (e2 & (e1 & (e0 & ? & ?) & ?) & ?). by exists e0, e1, e2.
Qed.

Lemma add_products_dual table obj context ctx :
  let data := Transaction.transaction_data obj in
  dict_get (u "product") data = None ->
  add_products table obj context = Return ctx ->
  exists raw_in raw_out pairs_in pairs_out es_in es_out,
    dict_get (u "product_in") data = Some raw_in
    /\ dict_get (u "product_out") data = Some raw_out
    /\ py_iter raw_in = Return pairs_in
    /\ py_iter raw_out = Return pairs_out
    /\ ctx = <["product_out" := CtxProducts es_out]>
               (<["product_in" := CtxProducts es_in]> context)
    /\ Forall2 (fun p e => exists e0 e1,
                  make_product JNull p = Return e0
                  /\ quantity_step (Transaction.updated_quantity obj) e0 e1
                  /\ pre_step table (Transaction.hash obj) e1 e) pairs_in es_in
    /\ Forall2 (fun p e => exists e0,
                  make_product (newid_of data) p = Return e0
                  /\ post_step table (Transaction.hash obj) e0 e) pairs_out es_out.
Proof.
  intros data Hraw. unfold add_products. fold data.
  rewrite newid_read. unfold dict_contains, data_getitem. rewrite Hraw. run.
  destruct (dict_get (u "product_in") data) as [raw_in|]; [|done].
  destruct (make_product_list raw_in JNull) as [i0|] eqn:Hi0; [|done].
  destruct (dict_get (u "product_out") data) as [raw_out|]; [|done].
  destruct (make_product_list raw_out _) as [o0|] eqn:Ho0; [|done].
  destruct (set_quantity i0 _) as [i1|] eqn:Hi1; [|done].
  destruct (set_pre_transactions table i1 _) as [i2|] eqn:Hi2; [|done].
  destruct (set_post_transactions table o0 _) as [o1|] eqn:Ho1; [|done].
  intros [= <-].
  apply make_product_list_Return in Hi0 as (pairs_in & Hin & Hi0).
  apply make_product_list_Return in Ho0 as (pairs_out & Hout & Ho0).
  apply set_quantity_Return in Hi1. apply set_pre_transactions_Return in Hi2.
  apply set_post_transactions_Return in Ho1.
  exists raw_in, raw_out, pairs_in, pairs_out, i2, o1. split_and!; [done..| |].
  - pose proof (Forall2_compose _ _ _ _ _ Hi0 Hi1) as H01.
    pose proof (Forall2_compose _ _ _ _ _ H01 Hi2) as H.
    eapply Forall2_impl; [exact H|].
    intros p e (e1 & (e0 & ? & ?) & ?). by exists e0, e1.
  - apply (Forall2_compose _ _ _ _ _ Ho0 Ho1).
Qed.

Lemma get_context_data_Return table obj ctx :
  outcome (get_context_data table obj) = Return ctx ->
  exists valid,
    outcome (verify_sign obj) = Return valid
    /\ add_products table obj
         (<["sign" := CtxValue (JBool valid)]> (super_get_context_data obj))
       = Return ctx.
Proof.
  rewrite get_context_data_outcome.
  destruct (outcome (verify_sign obj)) as [valid|]; [|done]. eauto.
Qed.

(** Take the steps an entry went through apart, down to its lookups. *)
Ltac steps :=
  cbv beta in *;
  repeat match goal with
    | H : post_step _ _ _ _ |- _ => destruct H as (? & ? & ->)
    | H : pre_step _ _ _ _ |- _ => destruct H as (? & ? & ->)
    | H : quantity_step _ _ _ |- _ =>
        destruct H as [[? ->]|(? & ? & ? & ? & ? & ->)]
    | H : make_product _ _ = Return _ |- _ =>
        apply make_product_Return in H
          as (? & ? & [[? ->]|(? & ? & ? & [[? ->]|[? ->]])])
    end;
  simplify_map_eq.

(** ** Lineage *)

Lemma elem_of_inputs_of table hash P x :
  x ∈ inputs_of table hash (JStr P) <->
  exists row, row ∈ table
    /\ TransactionInput.t_hash row = hash
    /\ TransactionInput.product row = P
    /\ TransactionInput.input row = x.
Proof.
  unfold inputs_of, product_matches. simpl. rewrite list_elem_of_fmap. split.
  - intros (row & -> & (Hrow & ?)%list_elem_of_filter). exists row.
    apply andb_prop in Hrow as [?%bool_decide_eq_true ?%bool_decide_eq_true].
    done.
  - intros (row & ? & ? & ? & <-). exists row. split; [done|].
    apply list_elem_of_filter. split; [|done].
    apply andb_true_intro. by rewrite !bool_decide_eq_true.
Qed.

Lemma elem_of_owners_of table hash P x :
  x ∈ owners_of table hash (JStr P) <->
  exists row, row ∈ table
    /\ TransactionInput.input row = hash
    /\ TransactionInput.product row = P
    /\ TransactionInput.t_hash row = x.
Proof.
  unfold owners_of, product_matches. simpl. rewrite list_elem_of_fmap. split.
  - intros (row & -> & (Hrow & ?)%list_elem_of_filter). exists row.
    apply andb_prop in Hrow as [?%bool_decide_eq_true ?%bool_decide_eq_true].
    done.
  - intros (row & ? & ? & ? & <-). exists row. split; [done|].
    apply list_elem_of_filter. split; [|done].
    apply andb_true_intro. by rewrite !bool_decide_eq_true.
Qed.

(** C5.  In the context that [get_context_data] returns, every entry of
    the single-product list carries, for its product code, the inputs of
    the link rows owned by this transaction as [pre] and the owners of
    the link rows that have this transaction as input as [post]; for a
    dual-flow transaction the entries of [product_in] carry [pre] and
    those of [product_out] carry [post].  The lists hold exactly the
    identifiers of the matching rows. *)
Theorem lineage_links (table : list TransactionInput.t) (obj : Transaction.t)
    (ctx : gmap string ctxval) :
  let data := Transaction.transaction_data obj in
  let hash := Transaction.hash obj in
  outcome (get_context_data table obj) = Return ctx ->
  (forall raw, dict_get (u "product") data = Some raw ->
     exists pairs es,
       py_iter raw = Return pairs
       /\ ctx !! "product" = Some (CtxProducts es)
       /\ Forall2 (fun p e => has_pre table hash p e /\ has_post table hash p e)
            pairs es)
  /\ (dict_get (u "product") data = None ->
      exists raw_in raw_out pairs_in pairs_out es_in es_out,
        dict_get (u "product_in") data = Some raw_in
        /\ dict_get (u "product_out") data = Some raw_out
        /\ py_iter raw_in = Return pairs_in
        /\ py_iter raw_out = Return pairs_out
        /\ ctx !! "product_in" = Some (CtxProducts es_in)
        /\ ctx !! "product_out" = Some (CtxProducts es_out)
        /\ Forall2 (has_pre table hash) pairs_in es_in
        /\ Forall2 (has_post table hash) pairs_out es_out)
  /\ (forall P x,
        x ∈ inputs_of table hash (JStr P) <->
        exists row, row ∈ table
          /\ TransactionInput.t_hash row = hash
          /\ TransactionInput.product row = P
          /\ TransactionInput.input row = x)
  /\ (forall P x,
        x ∈ owners_of table hash (JStr P) <->
        exists row, row ∈ table
          /\ TransactionInput.input row = hash
          /\ TransactionInput.product row = P
          /\ TransactionInput.t_hash row = x).
Proof.
  intros data hash (valid & _ & Hctx)%get_context_data_Return.
  subst data hash. unfold has_pre, has_post. split_and!.
  - intros raw Hraw.
    destruct (add_products_single _ _ _ _ _ Hraw Hctx) as (pairs & es & ? & -> & H).
    exists pairs, es. split_and!; [done|by simplify_map_eq|].
    eapply Forall2_impl; [exact H|].
    intros p e (e0 & e1 & e2 & ? & ? & ? & ?). steps; eauto 8.
  - intros Hraw.
    destruct (add_products_dual _ _ _ _ Hraw Hctx)
      as (raw_in & raw_out & pairs_in & pairs_out & es_in & es_out
          & ? & ? & ? & ? & -> & Hin & Hout).
    exists raw_in, raw_out, pairs_in, pairs_out, es_in, es_out.
    split_and!; [done..|by simplify_map_eq|by simplify_map_eq| |].
    + eapply Forall2_impl; [exact Hin|].
      intros p e (e0 & e1 & ? & ? & ?). steps; eauto 6.
    + eapply Forall2_impl; [exact Hout|].
      intros p e (e0 & ? & ?). steps; eauto 6.
  - apply elem_of_inputs_of.
  - apply elem_of_owners_of.
Qed.

Lemma Forall2_Forall_right {A B} (R : A -> B -> Prop) (Q : B -> Prop) l k :
  Forall2 R l k -> (forall x y, R x y -> Q y) -> Forall Q k.
Proof. induction 1; intros HQ; constructor; eauto. Qed.

(** C6.  A payload with no [product] key and without [product_in] or
    without [product_out] makes [get_context_data] raise: no context is
    returned.  When the signature check itself returned and [product_in]
    is the missing key, the exception is the [KeyError] of that key. *)
Theorem malformed_payload_fails (table : list TransactionInput.t)
    (obj : Transaction.t) :
  let data := Transaction.transaction_data obj in
  dict_contains (u "product") data = false ->
  dict_contains (u "product_in") data = false
    \/ dict_contains (u "product_out") data = false ->
  raises (outcome (get_context_data table obj))
  /\ (dict_contains (u "product_in") data = false ->
      forall valid, outcome (verify_sign obj) = Return valid ->
        outcome (get_context_data table obj)
        = Raise (KeyError (JStr (u "product_in")))).
Proof.
  intros data Hp Hio. rewrite get_context_data_outcome.
  unfold add_products. fold data. rewrite newid_read, Hp.
  unfold dict_contains, data_getitem in *. run. split.
  - destruct (outcome (verify_sign obj)) as [valid|e]; [|by eexists].
    destruct (dict_get (u "product_in") data); [|by eexists].
    destruct (make_product_list _ JNull); [|by eexists].
    destruct (dict_get (u "product_out") data); [|by eexists].
    by destruct Hio.
  - intros Hin valid ->. by destruct (dict_get (u "product_in") data).
Qed.

(** C10.  Every entry that [make_product_list] builds holds the product
    code of its pair and exactly one of [newid], [id] and [quantity],
    two keys in all, and neither [pre] nor [post] yet; a list of
    well-formed pairs always yields its entries. *)
Theorem product_entry_exclusive (p_list newid : json)
    (es : list (gmap string json)) :
  make_product_list p_list newid = Return es ->
  (exists pairs,
     py_iter p_list = Return pairs
     /\ Forall2 (one_identification newid) pairs es)
  /\ (forall l, returns (make_product_list (pair_list l) newid)).
Proof.
  intros (pairs & Hit & H)%make_product_list_Return. split.
  - exists pairs. split; [done|]. eapply Forall2_impl; [exact H|].
    intros p e He. unfold one_identification.
    apply make_product_Return in He
      as (code & ? & [[? ->]|(? & value & ? & [[Hs ->]|[? ->]])]);
      exists code; (split_and!; [done|by simplify_map_eq| |]).
    + by rewrite !map_size_insert_None, map_size_empty by by simplify_map_eq.
    + left. by simplify_map_eq.
    + by rewrite !map_size_insert_None, map_size_empty by by simplify_map_eq.
    + right; left. destruct value; try done. eexists. by simplify_map_eq.
    + by rewrite !map_size_insert_None, map_size_empty by by simplify_map_eq.
    + right; right. exists value. by simplify_map_eq.
  - intros l. rewrite make_product_list_pairs. by eexists.
Qed.

(** C8, as the code has it.  When the payload's [new_id] is a true value
    (a non-empty string, say), every entry of the single-product list,
    or of [product_out] for a dual-flow transaction, carries it as
    [newid] and carries neither [id] nor [quantity], whatever the pair's
    own value was; the entries of [product_in] never carry a [newid]. *)
Theorem minted_identifier (table : list TransactionInput.t)
    (obj : Transaction.t) (ctx : gmap string ctxval) (newid : json) :
  let data := Transaction.transaction_data obj in
  dict_get (u "new_id") data = Some newid ->
  py_truthy newid = true ->
  outcome (get_context_data table obj) = Return ctx ->
  (dict_contains (u "product") data = true ->
     exists es, ctx !! "product" = Some (CtxProducts es)
       /\ Forall (minted newid) es)
  /\ (dict_contains (u "product") data = false ->
      exists es_in es_out,
        ctx !! "product_in" = Some (CtxProducts es_in)
        /\ ctx !! "product_out" = Some (CtxProducts es_out)
        /\ Forall (fun e => e !! "newid" = None) es_in
        /\ Forall (minted newid) es_out).
Proof.
  intros data Hid Hty (valid & _ & Hctx)%get_context_data_Return.
  assert (newid_of data = newid) as Hnew by (unfold newid_of; by rewrite Hid).
  subst data. unfold dict_contains. split.
  - destruct (dict_get (u "product") _) as [raw|] eqn:Hraw; [intros _|done].
    destruct (add_products_single _ _ _ _ _ Hraw Hctx) as (pairs & es & ? & -> & H).
    exists es. split; [by simplify_map_eq|].
    eapply Forall2_Forall_right; [exact H|].
    intros p e (e0 & e1 & e2 & ? & ? & ? & ?).
    rewrite Hnew in *. unfold minted. steps; first [congruence|done].
  - destruct (dict_get (u "product") _) as [raw|] eqn:Hraw; [done|intros _].
    destruct (add_products_dual _ _ _ _ Hraw Hctx)
      as (raw_in & raw_out & pairs_in & pairs_out & es_in & es_out
          & ? & ? & ? & ? & -> & Hin & Hout).
    exists es_in, es_out. split_and!; [by simplify_map_eq..| |].
    + eapply Forall2_Forall_right; [exact Hin|].
      intros p e (e0 & e1 & ? & ? & ?). by steps.
    + eapply Forall2_Forall_right; [exact Hout|].
      intros p e (e0 & ? & ?).
      rewrite Hnew in *. unfold minted. steps; first [congruence|done].
Qed.

(** ** Quantities *)

Lemma quantity_getitem_Return uq code quantity :
  quantity_getitem uq code = Return quantity ->
  exists s, code = JStr s /\ uq !! s = Some quantity.
Proof.
  destruct code as [| | | |s| |]; try done. simpl.
  destruct (uq !! s) as [q|] eqn:Hs; [|done]. intros [= <-]. eauto.
Qed.

Lemma resolved_entry uq newid p e0 e1 e :
  py_truthy newid = false ->
  make_product newid p = Return e0 ->
  quantity_step uq e0 e1 ->
  e !! "quantity" = e1 !! "quantity" ->
  quantity_resolved uq p e.
Proof.
  intros Hid H0 H1 He value Hv Hs. rewrite He. clear He.
  apply make_product_Return in H0
    as (code & Hc & [[? ->]|(_ & value' & Hv' & [[? ->]|[_ ->]])]);
    [congruence|congruence|].
  assert (value' = value) as -> by congruence.
  destruct H1 as [[Hq ->]|(Hq & code' & quantity & Hp & Hg & ->)];
    simplify_map_eq.
  - split; [done|]. by intros ->.
  - split; [done|]. intros _.
    apply quantity_getitem_Return in Hg as (s & -> & ?). eauto.
Qed.

(** C7, as the code has it.  When no [new_id] applies and the value of a
    pair is not a string, the entry's quantity is that value if it is not
    null, whatever the quantity mapping holds; a null value in the
    single-product list or in [product_in] is replaced by what the
    mapping holds under the product code.  The entries of [product_out]
    keep the value of their pair, null included. *)
Theorem quantity_resolution (table : list TransactionInput.t)
    (obj : Transaction.t) (ctx : gmap string ctxval) :
  let data := Transaction.transaction_data obj in
  let updated_quantity := Transaction.updated_quantity obj in
  outcome (get_context_data table obj) = Return ctx ->
  (forall raw, dict_get (u "product") data = Some raw ->
     py_truthy (newid_of data) = false ->
     exists pairs es,
       py_iter raw = Return pairs
       /\ ctx !! "product" = Some (CtxProducts es)
       /\ Forall2 (quantity_resolved updated_quantity) pairs es)
  /\ (dict_get (u "product") data = None ->
      exists raw_in raw_out pairs_in pairs_out es_in es_out,
        dict_get (u "product_in") data = Some raw_in
        /\ dict_get (u "product_out") data = Some raw_out
        /\ py_iter raw_in = Return pairs_in
        /\ py_iter raw_out = Return pairs_out
        /\ ctx !! "product_in" = Some (CtxProducts es_in)
        /\ ctx !! "product_out" = Some (CtxProducts es_out)
        /\ Forall2 (quantity_resolved updated_quantity) pairs_in es_in
        /\ (py_truthy (newid_of data) = false ->
            Forall2 quantity_kept pairs_out es_out)).
Proof.
  intros data uq (valid & _ & Hctx)%get_context_data_Return.
  subst data uq. split.
  - intros raw Hraw Hid.
    destruct (add_products_single _ _ _ _ _ Hraw Hctx) as (pairs & es & ? & -> & H).
    exists pairs, es. split_and!; [done|by simplify_map_eq|].
    eapply Forall2_impl; [exact H|].
    intros p e (e0 & e1 & e2 & Hm & Hq & Hpre & Hpost).
    eapply (resolved_entry _ _ _ _ _ _ Hid Hm Hq). by steps.
  - intros Hraw.
    destruct (add_products_dual _ _ _ _ Hraw Hctx)
      as (raw_in & raw_out & pairs_in & pairs_out & es_in & es_out
          & ? & ? & ? & ? & -> & Hin & Hout).
    exists raw_in, raw_out, pairs_in, pairs_out, es_in, es_out.
    split_and!; [done..|by simplify_map_eq|by simplify_map_eq| |].
    + eapply Forall2_impl; [exact Hin|].
      intros p e (e0 & e1 & Hm & Hq & Hpre).
      eapply (resolved_entry _ JNull _ _ _ _ eq_refl Hm Hq). by steps.
    + intros Hid. eapply Forall2_impl; [exact Hout|].
      intros p e (e0 & Hm & Hpost) value Hv Hs.
      apply make_product_Return in Hm
        as (code & Hc & [[? ->]|(_ & value' & Hv' & [[? ->]|[_ ->]])]);
        [congruence|congruence|].
      assert (value' = value) as -> by congruence.
      by steps.
Qed.

Lemma for_each_returns_with {A B} (f : A -> result B) (Q : B -> Prop) l :
  Forall (fun x => exists y, f x = Return y /\ Q y) l ->
  exists l', for_each f l = Return l' /\ Forall Q l'.
Proof.
  induction 1 as [|x l (y & Hy & ?) _ (l' & Hl & ?)]; simpl.
  - by exists [].
  - rewrite Hy, Hl. exists (y :: l'). by split; [|constructor].
Qed.

Lemma resolve_quantity_made uq newid c v :
  py_truthy newid = false ->
  resolve_quantity uq (made newid (c, v)) =
  if is_none v then
    match uq !! c with
    | Some quantity => Return (<["quantity" := quantity]> (made newid (c, v)))
    | None => Raise (KeyError (JStr c))
    end
  else Return (made newid (c, v)).
Proof.
  intros Hid. unfold resolve_quantity, made, entry_getitem. rewrite Hid.
  cbn [fst snd]. destruct v; cbn [is_str is_none]; simplify_map_eq; try done.
  run. cbn [quantity_getitem]. by destruct (uq !! c).
Qed.

Lemma made_has_product newid cv : has_product (made newid cv).
Proof.
  unfold has_product, made.
  destruct (py_truthy newid); [|destruct (is_str cv.2)]; by simplify_map_eq.
Qed.

Lemma set_quantity_made_returns uq newid l :
  py_truthy newid = false ->
  (forall c, (c, JNull) ∈ l -> is_Some (uq !! c)) ->
  exists es, set_quantity (made newid <$> l) uq = Return es
    /\ Forall has_product es.
Proof.
  intros Hid Hl. apply for_each_returns_with, Forall_fmap, Forall_forall.
  intros [c v] Hcv. cbn [compose]. rewrite resolve_quantity_made by done.
  destruct v; cbn [is_none];
    try (eexists; split; [done|apply made_has_product]).
  destruct (Hl c Hcv) as [q ->]. eexists. split; [done|].
  unfold has_product. rewrite lookup_insert_ne by done.
  apply made_has_product.
Qed.

Lemma set_quantity_made_raises uq newid l c :
  py_truthy newid = false ->
  (c, JNull) ∈ l -> uq !! c = None ->
  exists c', (c', JNull) ∈ l /\ uq !! c' = None
    /\ set_quantity (made newid <$> l) uq = Raise (KeyError (JStr c')).
Proof.
  intros Hid Hc Hnone.
  destruct (for_each_raises (resolve_quantity uq) (made newid <$> l)
              (made newid (c, JNull))) as [e He].
  { apply list_elem_of_fmap. eauto. }
  { rewrite resolve_quantity_made by done. cbn [is_none]. rewrite Hnone.
    by eexists. }
  unfold set_quantity. rewrite He.
  apply for_each_Raise in He as (x & ([c' v] & -> & Hin)%list_elem_of_fmap & Hx).
  rewrite resolve_quantity_made in Hx by done.
  destruct v; cbn [is_none] in Hx; try done.
  destruct (uq !! c') eqn:Hc'; [done|]. simplify_eq. eauto.
Qed.

Lemma set_pre_transactions_returns table es hash :
  Forall has_product es ->
  exists es', set_pre_transactions table es hash = Return es'
    /\ Forall has_product es'.
Proof.
  intros H. apply for_each_returns_with. eapply Forall_impl; [exact H|].
  intros e [code He]. unfold entry_getitem. rewrite He. run.
  eexists. split; [done|]. unfold has_product. by simplify_map_eq.
Qed.

Lemma set_post_transactions_returns table es hash :
  Forall has_product es ->
  exists es', set_post_transactions table es hash = Return es'
    /\ Forall has_product es'.
Proof.
  intros H. apply for_each_returns_with. eapply Forall_impl; [exact H|].
  intros e [code He]. unfold entry_getitem. rewrite He. run.
  eexists. split; [done|]. unfold has_product. by simplify_map_eq.
Qed.

Lemma make_product_list_has_product raw newid es :
  make_product_list raw newid = Return es -> Forall has_product es.
Proof.
  intros (pairs & _ & H)%make_product_list_Return.
  eapply Forall2_Forall_right; [exact H|].
  intros p e He. unfold has_product. steps; by eexists.
Qed.

(** C9, as the code has it.  For a payload of well-formed pairs, with the
    signature check returned: the list that [set_quantity] is run on is
    the single-product list, when no [new_id] applies, or [product_in].
    If a pair of that list has a null value and a product code that is
    not a key of the quantity mapping, [get_context_data] raises the
    [KeyError] of such a code; if every such code is a key, it returns a
    context. *)
Theorem quantity_lookup_unguarded (table : list TransactionInput.t)
    (obj : Transaction.t) (valid : bool) (l : list (pystr * json)) :
  let data := Transaction.transaction_data obj in
  let updated_quantity := Transaction.updated_quantity obj in
  outcome (verify_sign obj) = Return valid ->
  (dict_get (u "product") data = Some (pair_list l)
     /\ py_truthy (newid_of data) = false)
  \/ (dict_get (u "product") data = None
      /\ dict_get (u "product_in") data = Some (pair_list l)
      /\ exists raw_out,
           dict_get (u "product_out") data = Some raw_out
           /\ returns (make_product_list raw_out (newid_of data))) ->
  (forall c, (c, JNull) ∈ l -> updated_quantity !! c = None ->
     exists c', (c', JNull) ∈ l /\ updated_quantity !! c' = None
       /\ outcome (get_context_data table obj) = Raise (KeyError (JStr c')))
  /\ ((forall c, (c, JNull) ∈ l -> is_Some (updated_quantity !! c)) ->
      returns (outcome (get_context_data table obj))).
Proof.
  intros data uq Hv Hshape. subst data uq.
  rewrite get_context_data_outcome, Hv. unfold add_products.
  rewrite newid_read. unfold dict_contains, data_getitem. run.
  destruct Hshape as [[-> Hid]|(-> & -> & raw_out & -> & [es_out Hout])].
  - rewrite make_product_list_pairs. split.
    + intros c Hc Hnone.
      destruct (set_quantity_made_raises _ _ _ _ Hid Hc Hnone)
        as (c' & ? & ? & ->). eauto.
    + intros Hall.
      destruct (set_quantity_made_returns _ _ _ Hid Hall) as (es1 & -> & H1).
      destruct (set_pre_transactions_returns table _ (Transaction.hash obj) H1)
        as (es2 & -> & H2).
      destruct (set_post_transactions_returns table _ (Transaction.hash obj) H2)
        as (es3 & -> & H3).
      by eexists.
  - rewrite make_product_list_pairs, Hout. split.
    + intros c Hc Hnone.
      destruct (set_quantity_made_raises _ JNull _ _ eq_refl Hc Hnone)
        as (c' & ? & ? & ->). eauto.
    + intros Hall.
      destruct (set_quantity_made_returns _ JNull _ eq_refl Hall)
        as (es1 & -> & H1).
      destruct (set_pre_transactions_returns table _ (Transaction.hash obj) H1)
        as (es2 & -> & H2).
      destruct (set_post_transactions_returns table _ (Transaction.hash obj)
                  (make_product_list_has_product _ _ _ Hout)) as (es3 & -> & H3).
      by eexists.
Qed.

(** ** The serialized text is ASCII *)

Lemma ascii_text_app a b : ascii_text a -> ascii_text b -> ascii_text (a ++ b).
Proof. unfold ascii_text. intros. by apply Forall_app. Qed.

Lemma hex_digit_ascii n : n < 16 -> hex_digit n < 128.
Proof. unfold hex_digit. intros. destruct (n <? 10); lia. Qed.

Lemma hex4_ascii n : ascii_text (hex4 n).
Proof.
  unfold hex4, ascii_text.
  repeat constructor; apply hex_digit_ascii; by apply N.mod_lt.
Qed.

Lemma escape_char_ascii c : ascii_text (escape_char c).
Proof.
  unfold escape_char, escape_u.
  repeat case_match;
    try (repeat constructor; done);
    repeat apply ascii_text_app; try apply hex4_ascii;
    try (repeat constructor; done).
  constructor; [|constructor].
  match goal with H : _ && _ = true |- _ => apply andb_prop in H as [_ ?%N.leb_le] end.
  lia.
Qed.

Lemma encode_basestring_ascii_ascii s : ascii_text (encode_basestring_ascii s).
Proof.
  unfold encode_basestring_ascii.
  repeat apply ascii_text_app; try (repeat constructor; done).
  induction s as [|c s IH]; [constructor|].
  rewrite fmap_cons, concat_cons. apply ascii_text_app; [apply escape_char_ascii|done].
Qed.

Lemma string_of_uint_ascii d : ascii_text (u (NilZero.string_of_uint d)).
Proof.
  unfold NilZero.string_of_uint. destruct d; try (repeat constructor; done);
    simpl; (constructor; [done|]);
    match goal with |- Forall _ (u (NilEmpty.string_of_uint ?d)) =>
      induction d; simpl; constructor; done end.
Qed.

Lemma int_repr_ascii z : ascii_text (int_repr z).
Proof.
  unfold int_repr, NilZero.string_of_int.
  destruct (Z.to_int z) as [d|d].
  - apply string_of_uint_ascii.
  - simpl. constructor; [done|]. apply string_of_uint_ascii.
Qed.

Lemma json_nested_ind (P : json -> Prop) :
  P JNull -> (forall b, P (JBool b)) -> (forall z, P (JInt z)) ->
  (forall r, P (JFloat r)) -> (forall s, P (JStr s)) ->
  (forall l, Forall P l -> P (JList l)) ->
  (forall d, Forall (fun kv => P kv.2) d -> P (JDict d)) ->
  forall j, P j.
Proof.
  intros HN HB HI HF HS HL HD. fix IH 1.
  intros [|b|z|r|s|l|d];
    [apply HN|apply HB|apply HI|apply HF|apply HS| |].
  - apply HL. revert l. fix IHl 1. intros [|x l]; constructor; [apply IH|apply IHl].
  - apply HD. revert d. fix IHd 1.
    intros [|[k v] d]; constructor; [apply IH|apply IHd].
Qed.

Lemma dumps_JList i k l :
  dumps i k (JList l) = u "[" ++ join i (dumps i k <$> l) ++ u "]".
Proof.
  simpl. do 2 f_equal.
  induction l as [|x l IH]; [done|].
  destruct l as [|y l]; [done|].
  rewrite IH. done.
Qed.

Lemma dumps_ascii i k j :
  ascii_text i -> ascii_text k -> floats_ascii j = true ->
  ascii_text (dumps i k j).
Proof.
  intros Hi Hk. induction j as [|b|z|r|s|l IH|d IH] using json_nested_ind;
    intros Hj.
  - repeat constructor; done.
  - destruct b; repeat constructor; done.
  - apply int_repr_ascii.
  - simpl in *. apply Forall_forall. intros c Hc.
    rewrite forallb_forall in Hj. apply N.ltb_lt, Hj. by apply list_elem_of_In.
  - apply encode_basestring_ascii_ascii.
  - rewrite dumps_JList. repeat apply ascii_text_app; try (repeat constructor; done).
    simpl in Hj.
    induction l as [|x l IHl]; [constructor|].
    simpl in Hj. apply andb_prop in Hj as [Hx Hl].
    apply Forall_cons in IH as [IHx IH].
    rewrite fmap_cons. destruct l as [|y l]; [by apply IHx|].
    change (join i (?a :: ?b :: ?r)) with (a ++ i ++ join i (b :: r)).
    apply ascii_text_app; [by apply IHx|]. apply ascii_text_app; [done|].
    by apply IHl.
  - rewrite dumps_JDict. repeat apply ascii_text_app; try (repeat constructor; done).
    simpl in Hj.
    induction d as [|[key v] d IHd]; [constructor|].
    simpl in Hj. apply andb_prop in Hj as [Hv Hd].
    apply Forall_cons in IH as [IHv IH].
    assert (ascii_text (encode_basestring_ascii key ++ k ++ dumps i k v)) as Hm.
    { apply ascii_text_app; [apply encode_basestring_ascii_ascii|].
      apply ascii_text_app; [done|]. by apply IHv. }
    rewrite fmap_cons. destruct d as [|m d]; [exact Hm|].
    change (join i (?x :: ?y :: ?r)) with (x ++ i ++ join i (y :: r)).
    apply ascii_text_app; [exact Hm|]. apply ascii_text_app; [done|]. by apply IHd.
Qed.

Lemma utf8_char_ascii c : c < 128 -> utf8_char c = Return [byte_of c].
Proof. intros Hc. unfold utf8_char. by rewrite (proj2 (N.ltb_lt _ _) Hc). Qed.

Lemma encode_utf8_ascii s :
  ascii_text s -> encode_utf8 s = Return (byte_of <$> s).
Proof.
  intros Hs. unfold encode_utf8.
  assert (for_each utf8_char s = Return ((fun c => [byte_of c]) <$> s)) as ->.
  { rewrite <-(list_fmap_id s) at 1. apply for_each_fmap_Return.
    intros c Hc. apply utf8_char_ascii.
    unfold ascii_text in Hs. rewrite Forall_forall in Hs. by apply Hs. }
  run. f_equal. clear Hs. induction s as [|c s IH]; [done|].
  rewrite !fmap_cons, concat_cons, IH. done.
Qed.

Lemma OrderedDict_Forall (Q : pystr * json -> Prop) l :
  Forall Q l -> Forall Q (OrderedDict l).
Proof.
  unfold OrderedDict.
  enough (forall acc, Forall Q acc -> Forall Q l ->
            Forall Q (fold_left (fun d kv => dict_set kv.1 kv.2 d) l acc))
    as H by (intros; by apply H).
  induction l as [|[k v] l IH]; intros acc Hacc Hl; simpl; [done|].
  apply Forall_cons in Hl as [Hkv Hl]. apply IH; [|done].
  clear IH Hl. induction acc as [|[k' v'] acc IHacc]; simpl.
  - by constructor.
  - apply Forall_cons in Hacc as [? ?]. case_decide; subst; constructor; auto.
Qed.

Lemma floats_ascii_items d :
  floats_ascii (JDict d) = true <-> Forall (fun kv => floats_ascii kv.2 = true) d.
Proof.
  simpl. rewrite forallb_forall, Forall_forall. split.
  - intros H [k v] Hkv. by apply (H (k, v)), list_elem_of_In.
  - intros H [k v] Hkv. by apply (H (k, v)), list_elem_of_In.
Qed.

Lemma serialized_transaction_ascii tx :
  floats_ascii (JDict (Transaction.transaction_data tx)) = true ->
  ascii_text (serialized_transaction tx).
Proof.
  intros Hd. unfold serialized_transaction.
  apply dumps_ascii; try (repeat constructor; done).
  apply floats_ascii_items, OrderedDict_Forall.
  unfold signed_fields.
  assert (floats_ascii
            (JDict (OrderedDict (sorted_items (Transaction.transaction_data tx))))
          = true) as Hs.
  { apply floats_ascii_items, OrderedDict_Forall.
    rewrite sorted_items_perm. by apply floats_ascii_items. }
  destruct (Transaction.receiver tx); repeat constructor; done.
Qed.

Lemma canonical_bytes_ascii tx :
  floats_ascii (JDict (Transaction.transaction_data tx)) = true ->
  canonical_bytes tx = Return (byte_of <$> serialized_transaction tx).
Proof. intros Hd. by apply encode_utf8_ascii, serialized_transaction_ascii. Qed.

(** X1.  The text that is hashed is plain ASCII, whatever strings the
    transaction holds, so that encoding it never fails and gives one byte
    for each character. *)
Theorem canonical_bytes_total (tx : Transaction.t) :
  floats_ascii (JDict (Transaction.transaction_data tx)) = true ->
  ascii_text (serialized_transaction tx)
  /\ exists message,
       canonical_bytes tx = Return message
       /\ length message = length (serialized_transaction tx)
       /\ message = byte_of <$> serialized_transaction tx.
Proof.
  intros Hd. split; [by apply serialized_transaction_ascii|].
  exists (byte_of <$> serialized_transaction tx).
  split_and!; [by apply canonical_bytes_ascii|by rewrite length_fmap|done].
Qed.

(** [verify_sign], once the bytes to hash are known. *)
Lemma verify_sign_run self message :
  let pem := Key.public_key (Transaction.transmitter self) in
  canonical_bytes self = Return message ->
  verify_sign self =
  if bool_decide (Transaction.hash self ≠ hexdigest (SHA256_new message)) then
    Traced [] (Return false)
  else
    match RSA_importKey pem with
    | Raise e => Traced [ImportKey pem] (Raise e)
    | Return key =>
        match fromhex (Transaction.sign self) with
        | Raise e => Traced [ImportKey pem; NewVerifier] (Raise e)
        | Return signature =>
            Traced [ImportKey pem; NewVerifier; Verify signature]
                   (Return (PKCS1_v1_5_verify key (SHA256_new message) signature))
        end
    end.
Proof.
  intros pem Hm. unfold verify_sign. rewrite Hm. fold pem.
  unfold mbind, traced_bind, lift, call, mret, traced_ret; simpl.
  destruct (bool_decide _); [done|].
  destruct (RSA_importKey pem); simpl; [|done].
  by destruct (fromhex _).
Qed.

(** X2.  The only exceptions [verify_sign] raises are the one of the key
    import and the [ValueError] of a signature field that is not hex
    text, both only once the identifier has matched; when it raises, the
    verifier was not asked. *)
Theorem verify_sign_raises_only (self : Transaction.t) (e : PyErr) :
  let pem := Key.public_key (Transaction.transmitter self) in
  floats_ascii (JDict (Transaction.transaction_data self)) = true ->
  outcome (verify_sign self) = Raise e ->
  Transaction.hash self
  = hexdigest (SHA256_new (byte_of <$> serialized_transaction self))
  /\ ((RSA_importKey pem = Raise e /\ calls (verify_sign self) = [ImportKey pem])
      \/ (returns (RSA_importKey pem) /\ e = ValueError
          /\ (forall signature, ~ hex_text (Transaction.sign self) signature)
          /\ calls (verify_sign self) = [ImportKey pem; NewVerifier])).
Proof.
  intros pem Hd. rewrite (verify_sign_run self _ (canonical_bytes_ascii self Hd)).
  fold pem. case_bool_decide as Hh; [done|].
  destruct (RSA_importKey pem) as [key|e'] eqn:Hk; simpl.
  - destruct (fromhex_outcome (Transaction.sign self)) as [(bs & -> & _)|[-> Hno]];
      simpl; [done|].
    intros [= <-]. split; [done|]. right. split_and!; [by eexists|done..].
  - intros [= <-]. split; [done|]. by left.
Qed.

(** X3.  What the signature check means for the detail view.  A transaction
    whose identifier does not match is still shown: the context says
    [sign] is [False] and the product lists are resolved as for any other,
    without a call into the RSA library.  A transaction whose identifier
    matches, whose key imports and whose signature field is not hex text
    cannot be shown at all: the view raises [ValueError] whatever the
    payload and the link rows are. *)
Theorem view_and_verification (table : list TransactionInput.t)
    (obj : Transaction.t) :
  let pem := Key.public_key (Transaction.transmitter obj) in
  let digest :=
    hexdigest (SHA256_new (byte_of <$> serialized_transaction obj)) in
  floats_ascii (JDict (Transaction.transaction_data obj)) = true ->
  (Transaction.hash obj <> digest ->
     get_context_data table obj =
     Traced [] (add_products table obj
                  (<["sign" := CtxValue (JBool false)]>
                     (super_get_context_data obj))))
  /\ (Transaction.hash obj = digest ->
      returns (RSA_importKey pem) ->
      (forall signature, ~ hex_text (Transaction.sign obj) signature) ->
      get_context_data table obj =
      Traced [ImportKey pem; NewVerifier] (Raise ValueError)).
Proof.
  intros pem digest Hd. unfold get_context_data.
  rewrite (verify_sign_run obj _ (canonical_bytes_ascii obj Hd)).
  fold pem digest. split.
  - intros Hne. rewrite bool_decide_true by done.
    unfold mbind, traced_bind, lift. simpl. by destruct (add_products _ _ _).
  - intros Heq [key Hk] Hno.
    rewrite bool_decide_false by (intros Hne; by apply Hne).
    by rewrite Hk, (fromhex_not_hex_text _ Hno).
Qed.

(** X4.  The context the view returns keeps what [DetailView] put in it
    ([object], [t] and [view]), holds the verdict of [verify_sign] under
    [sign], and holds besides either [product] alone, when the payload has
    a [product] key, or [product_in] and [product_out]: a payload that has
    [product] never gets its [product_in] and [product_out] looked at. *)
Theorem context_keys (table : list TransactionInput.t) (obj : Transaction.t)
    (ctx : gmap string ctxval) :
  outcome (get_context_data table obj) = Return ctx ->
  (exists valid,
     outcome (verify_sign obj) = Return valid
     /\ ctx !! "sign" = Some (CtxValue (JBool valid)))
  /\ ctx !! "object" = Some (CtxObject obj)
  /\ ctx !! "t" = Some (CtxObject obj)
  /\ ctx !! "view" = Some CtxView
  /\ dom ctx =
     if dict_contains (u "product") (Transaction.transaction_data obj)
     then {["object"; "t"; "view"; "sign"; "product"]}
     else {["object"; "t"; "view"; "sign"; "product_in"; "product_out"]}.
Proof.
  intros (valid & Hv & Hctx)%get_context_data_Return.
  unfold dict_contains.
  destruct (dict_get (u "product") _) as [raw|] eqn:Hraw.
  - destruct (add_products_single _ _ _ _ _ Hraw Hctx) as (pairs & es & _ & -> & _).
    unfold super_get_context_data.
    split_and!; [exists valid; split; [done|]|..]; try by simplify_map_eq.
    all: rewrite !dom_insert_L, dom_empty_L; set_solver.
  - destruct (add_products_dual _ _ _ _ Hraw Hctx)
      as (? & ? & ? & ? & es_in & es_out & _ & _ & _ & _ & -> & _).
    unfold super_get_context_data.
    split_and!; [exists valid; split; [done|]|..]; try by simplify_map_eq.
    all: rewrite !dom_insert_L, dom_empty_L; set_solver.
Qed.

(** X5.  When a new identifier applies, the second element of a pair is never
    read: a list of one-element pairs yields its entries.  Without a new
    identifier the same list raises [IndexError]. *)
Theorem pair_value_read_only_without_newid (codes : list json) (newid : json) :
  let p_list := JList ((fun code => JList [code]) <$> codes) in
  (py_truthy newid = true ->
   make_product_list p_list newid =
   Return ((fun code => <["newid" := newid]> (<["product" := code]> ∅)) <$> codes))
  /\ (py_truthy newid = false -> codes <> [] ->
      make_product_list p_list newid = Raise IndexError).
Proof.
  intros p_list. unfold p_list, make_product_list. cbn [py_iter]. run. split.
  - intros Hid. apply for_each_fmap_Return. intros code _.
    unfold make_product. cbn [py_getitem lookup list_lookup]. run. by rewrite Hid.
  - intros Hid Hne. destruct codes as [|code codes]; [done|].
    rewrite fmap_cons. cbn [for_each]. unfold make_product at 1.
    cbn [py_getitem lookup list_lookup]. run. by rewrite Hid.
Qed.

Lemma row_eq (r1 r2 : TransactionInput.t) :
  TransactionInput.t_hash r1 = TransactionInput.t_hash r2 ->
  TransactionInput.input r1 = TransactionInput.input r2 ->
  TransactionInput.product r1 = TransactionInput.product r2 ->
  r1 = r2.
Proof. destruct r1, r2. simpl. by intros -> -> ->. Qed.

(** X6.  As the link rows are unique in (owner, input, product), no
    predecessor and no successor is listed twice for a product. *)
Theorem lineage_lists_distinct (table : list TransactionInput.t)
    (hash : pystr) (code : json) :
  unique_together table ->
  NoDup (inputs_of table hash code) /\ NoDup (owners_of table hash code).
Proof.
  unfold unique_together. intros Hu%NoDup_fmap_1.
  unfold inputs_of, owners_of, product_matches.
  split; (apply NoDup_fmap_2_strong; [|by apply NoDup_filter]);
    intros r1 r2 [H1 _]%list_elem_of_filter [H2 _]%list_elem_of_filter Heq;
    apply andb_prop in H1 as [H1 H1']; apply andb_prop in H2 as [H2 H2'];
    apply bool_decide_eq_true in H1, H2;
    destruct (product_lookup code) as [s|]; try done;
    apply bool_decide_eq_true in H1', H2';
    apply row_eq; congruence.
Qed.

(** X7.  Resolving the quantities of a list that was already resolved changes
    nothing. *)
Theorem set_quantity_idempotent (p_list es : list (gmap string json))
    (updated_quantity : gmap pystr json) :
  set_quantity p_list updated_quantity = Return es ->
  set_quantity es updated_quantity = Return es.
Proof.
  intros H%set_quantity_Return. apply for_each_Return.
  apply Forall2_same_length_lookup. split; [done|].
  intros i e e' He He'. assert (e' = e) as -> by congruence.
  destruct (Forall2_lookup_r _ _ _ _ _ H He) as (e0 & _ & Hstep).
  unfold resolve_quantity, entry_getitem.
  destruct Hstep as [[Hq ->]|(Hq & code & quantity & Hp & Hg & ->)].
  - destruct (e0 !! "quantity") as [[]|]; done.
  - rewrite lookup_insert_eq, lookup_insert_ne, Hp by done.
    destruct quantity; try done. run. rewrite Hg. run.
    by rewrite insert_insert_eq.
Qed.

(** ** The keys *)

Lemma Key_get_Some table hash k :
  Key_get table hash = Some k -> k ∈ table /\ Key.hash k = hash.
Proof.
  unfold Key_get. intros H%head_Some_elem_of. by apply list_elem_of_filter in H as [? ?].
Qed.

Lemma Key_get_None table hash :
  Key_get table hash = None <-> hash ∉ Key.hash <$> table.
Proof.
  unfold Key_get. induction table as [|row table IH]; simpl.
  { split; [intros _; apply not_elem_of_nil|done]. }
  rewrite filter_cons, not_elem_of_cons. case_decide as Hrow; simpl.
  - split; [done|]. intros [Hne _]. by destruct Hne.
  - rewrite IH. split; [by split|by intros [_ ?]].
Qed.

Lemma Key_get_unique table k :
  keys_unique table -> k ∈ table -> Key_get table (Key.hash k) = Some k.
Proof.
  unfold keys_unique, Key_get. induction table as [|row table IH]; simpl.
  { by intros _ ?%elem_of_nil. }
  rewrite NoDup_cons, filter_cons. intros [Hnin Hnd] Hk.
  case_decide as Hrow; simpl.
  - apply elem_of_cons in Hk as [->|Hk]; [done|].
    destruct Hnin. rewrite Hrow. apply list_elem_of_fmap. eauto.
  - apply elem_of_cons in Hk as [->|Hk]; [done|]. by apply IH.
Qed.

Lemma upsert_get_eq k table : Key_get (upsert k table) (Key.hash k) = Some k.
Proof.
  unfold Key_get. induction table as [|row table IH]; simpl.
  - by rewrite filter_cons, decide_True.
  - case_decide as Hrow.
    + by rewrite filter_cons, decide_True.
    + by rewrite filter_cons, decide_False.
Qed.

Lemma upsert_get_ne k table hash :
  hash <> Key.hash k -> Key_get (upsert k table) hash = Key_get table hash.
Proof.
  unfold Key_get. intros Hne. induction table as [|row table IH]; simpl.
  - by rewrite filter_cons, decide_False.
  - case_decide as Hrow.
    + rewrite !filter_cons, !decide_False; [done|congruence|congruence].
    + rewrite !filter_cons. case_decide; simpl; [done|apply IH].
Qed.

Lemma upsert_hashes_known k table :
  Key.hash k ∈ Key.hash <$> table ->
  Key.hash <$> upsert k table = Key.hash <$> table.
Proof.
  induction table as [|row table IH]; [by intros ?%elem_of_nil|].
  rewrite fmap_cons. intros Hk. cbn [upsert].
  case_decide as Hrow; rewrite !fmap_cons; [by rewrite Hrow|].
  f_equal. apply IH. apply elem_of_cons in Hk as [Hk|Hk]; [congruence|done].
Qed.

Lemma upsert_fresh k table :
  Key.hash k ∉ Key.hash <$> table -> upsert k table = table ++ [k].
Proof.
  induction table as [|row table IH]; [done|].
  rewrite fmap_cons, not_elem_of_cons. intros [Hne Hnin]. cbn [upsert].
  rewrite decide_False by congruence. by rewrite IH.
Qed.

Lemma upsert_unique k table : keys_unique table -> keys_unique (upsert k table).
Proof.
  unfold keys_unique. intros Hu.
  destruct (decide (Key.hash k ∈ Key.hash <$> table)) as [Hk|Hk].
  - by rewrite upsert_hashes_known.
  - rewrite upsert_fresh, fmap_app by done. apply NoDup_app. split_and!; [done| |].
    + intros h Hh [->|[]%elem_of_nil]%elem_of_cons. done.
    + apply NoDup_singleton.
Qed.

Lemma upsert_Forall (Q : Key.t -> Prop) k table :
  Q k -> Forall Q table -> Forall Q (upsert k table).
Proof.
  intros Hk. induction 1 as [|row table Hrow Ht IH]; simpl.
  - by constructor.
  - case_decide; constructor; auto.
Qed.

Lemma upsert_elem_of k table x :
  keys_unique table ->
  x ∈ upsert k table <-> x = k \/ (x ∈ table /\ Key.hash x <> Key.hash k).
Proof.
  unfold keys_unique. induction table as [|row table IH]; simpl.
  { intros _. rewrite list_elem_of_singleton. split; [by left|].
    by intros [?|[?%elem_of_nil _]]. }
  rewrite NoDup_cons. intros [Hnin Hnd]. case_decide as Hrow.
  - rewrite !elem_of_cons. split.
    + intros [->|Hx]; [by left|]. right. split; [by right|].
      intros Heq. destruct Hnin. rewrite Hrow, <-Heq.
      apply list_elem_of_fmap. eauto.
    + intros [->|[[->|Hx] Hne]]; [by left|done|by right].
  - rewrite !elem_of_cons, IH by done. split.
    + intros [->|[->|[? ?]]]; [right; split; [by left|done]|by left|].
      right. split; [by right|done].
    + intros [->|[[->|Hx] Hne]]; [right; by left|by left|].
      right. right. done.
Qed.

Lemma Key_save_Return self table k table' :
  Key_save self table = Return (k, table') ->
  key_identifier (Key.public_key self) = Return (Key.hash k)
  /\ k = Key.mk (Key.hash k) (Key.public_key self) (Key.current_status self)
           (Key.name self) (Key.description self)
  /\ table' = upsert k table.
Proof.
  unfold Key_save.
  destruct (key_identifier (Key.public_key self)) as [hash|]; [|done]. run.
  by intros [= <- <-].
Qed.

Lemma Key_save_consistent self table :
  key_identifier (Key.public_key self) = Return (Key.hash self) ->
  Key_save self table = Return (self, upsert self table).
Proof. unfold Key_save. intros ->. run. by destruct self. Qed.

(** X8.  [Key.save] stores the key under the digest of its public key,
    whatever identifier it came with: afterwards that identifier finds the
    key as saved, every other identifier finds what it found before, and
    the table still has one row for each identifier, each the digest of
    its row's public key. *)
Theorem Key_save_identifier (self k : Key.t) (table table' : list Key.t) :
  Key_save self table = Return (k, table') ->
  key_identifier (Key.public_key self) = Return (Key.hash k)
  /\ Key.public_key k = Key.public_key self
  /\ Key.current_status k = Key.current_status self
  /\ Key.name k = Key.name self
  /\ Key.description k = Key.description self
  /\ Key_get table' (Key.hash k) = Some k
  /\ (forall hash, hash <> Key.hash k -> Key_get table' hash = Key_get table hash)
  /\ (keys_unique table -> keys_unique table')
  /\ (keys_consistent table -> keys_consistent table').
Proof.
  intros (Hid & Hk & ->)%Key_save_Return.
  split_and!.
  - done.
  - by rewrite Hk.
  - by rewrite Hk.
  - by rewrite Hk.
  - by rewrite Hk.
  - apply upsert_get_eq.
  - intros hash Hne. by apply upsert_get_ne.
  - apply upsert_unique.
  - apply upsert_Forall. rewrite Hk at 1. done.
Qed.

Lemma status_saved table hash k status :
  keys_consistent table -> Key_get table hash = Some k ->
  Key_save (with_status k status) table
  = Return (with_status k status, upsert (with_status k status) table).
Proof.
  intros Hc [Hk _]%Key_get_Some. apply Key_save_consistent.
  unfold keys_consistent in Hc. rewrite Forall_forall in Hc. exact (Hc k Hk).
Qed.

(** X9.  [ActivateKey] and [DeactivateKey] on a key that exists: its row, and
    no other, gets the new status, whatever the status was; no row is
    added; the other tables are left alone; one success message is added
    and the answer is a redirect to the referring page, or to [/] when
    the request names none. *)
Theorem status_views (db : database) (r : request) (hash : pystr) (k : Key.t) :
  keys_consistent (keys db) ->
  Key_get (keys db) hash = Some k ->
  let outcome status text :=
    Redirected (with_keys db (upsert (with_status k status) (keys db)))
      (messages r ++ [(SUCCESS, u "La clave '" ++ Key.name k ++ text)])
      (Path (default (u "/") (HTTP_REFERER r))) in
  ActivateKey db r hash
  = outcome (u "active") (u "' se ha activado correctamente.")
  /\ DeactivateKey db r hash
     = outcome (u "inactive") (u "' se ha desactivado correctamente.")
  /\ forall status,
       let table := upsert (with_status k status) (keys db) in
       Key_get table hash = Some (with_status k status)
       /\ (forall other, other <> hash -> Key_get table other = Key_get (keys db) other)
       /\ Key.hash <$> table = Key.hash <$> keys db.
Proof.
  intros Hc Hk outcome. pose proof (Key_get_Some _ _ _ Hk) as [Hin Hh].
  split_and!.
  - unfold ActivateKey. by rewrite Hk, (status_saved _ _ _ _ Hc Hk).
  - unfold DeactivateKey. by rewrite Hk, (status_saved _ _ _ _ Hc Hk).
  - intros status table. subst table. split_and!.
    + rewrite <-Hh. apply (upsert_get_eq (with_status k status)).
    + intros other Hne. apply upsert_get_ne. simpl. congruence.
    + apply upsert_hashes_known. simpl. apply list_elem_of_fmap. eauto.
Qed.

(** X10.  The three views that look a key up never report a missing key: the
    message of their [except] clause is never added.  For an identifier
    that no key has they raise [NameError], the name of the clause being
    unbound, and every redirect they answer with adds exactly one message,
    which is not that one. *)
Theorem key_not_found_is_not_reported (db : database) (r : request)
    (hash : pystr) :
  let not_found := (ERROR, u "No se ha encontrado la clave.") in
  (Key_get (keys db) hash = None ->
     ActivateKey db r hash = NameError (u "ObjectDoesNotExist")
     /\ DeactivateKey db r hash = NameError (u "ObjectDoesNotExist")
     /\ RemoveKey db r hash = NameError (u "ObjectDoesNotExist"))
  /\ forall view db' msgs to,
       view ∈ [ActivateKey; DeactivateKey; RemoveKey] ->
       view db r hash = Redirected db' msgs to ->
       is_Some (Key_get (keys db) hash)
       /\ exists m, msgs = messages r ++ [m] /\ m <> not_found.
Proof.
  intros not_found. split.
  - intros Hk. unfold ActivateKey, DeactivateKey, RemoveKey. by rewrite Hk.
  - intros view db' msgs to Hview.
    repeat (apply elem_of_cons in Hview as [->|Hview]);
      [| | |by apply elem_of_nil in Hview];
      unfold ActivateKey, DeactivateKey, RemoveKey;
      destruct (Key_get (keys db) hash) as [k|]; try done.
    + destruct (Key_save _ _) as [[k' table]|]; [|done].
      intros [= <- <- <-]. split; [by eexists|]. by eexists.
    + destruct (Key_save _ _) as [[k' table]|]; [|done].
      intros [= <- <- <-]. split; [by eexists|]. by eexists.
    + case_bool_decide; intros [= <- <- <-]; (split; [by eexists|]);
        eexists; (split; [done|]); unfold not_found; [done|congruence].
Qed.

(** X11.  [RemoveKey] deletes a key only while its status is [new].  For any
    other status nothing is changed in any table and the error message is
    added.  For a pending key the key is gone afterwards and every other
    key is found as before. *)
Theorem RemoveKey_only_pending (db : database) (r : request) (hash : pystr)
    (k : Key.t) :
  Key_get (keys db) hash = Some k ->
  (Key.current_status k <> u "new" ->
     RemoveKey db r hash =
     Redirected db
       (messages r ++
          [(ERROR, u "No se pueden eliminar claves que ya han sido activadas.")])
       (Path (default (u "/") (HTTP_REFERER r))))
  /\ (Key.current_status k = u "new" ->
      exists db',
        RemoveKey db r hash =
        Redirected db'
          (messages r ++
             [(SUCCESS, u "La clave '" ++ Key.name k
                        ++ u "' se ha eliminado correctamente.")])
          (Path (default (u "/") (HTTP_REFERER r)))
        /\ Key_get (keys db') hash = None
        /\ (forall other, other <> hash ->
              Key_get (keys db') other = Key_get (keys db) other)).
Proof.
  intros Hk. pose proof (Key_get_Some _ _ _ Hk) as [Hin Hh].
  unfold RemoveKey. rewrite Hk. split.
  - intros Hs. by rewrite bool_decide_true.
  - intros Hs. rewrite bool_decide_false by (intros Hne; by apply Hne).
    eexists. split; [done|]. rewrite Hh. cbn [keys Key_delete]. split.
    + apply Key_get_None.
      intros (x & -> & [Hne _]%list_elem_of_filter)%list_elem_of_fmap. done.
    + intros other Hne. unfold Key_get. rewrite list_filter_filter. f_equal.
      apply list_filter_iff. intros x. split; [by intros [? _]|].
      intros Hx. split; [done|congruence].
Qed.


(** X13.  After [ActivateKey] the key is in the list of active keys and in
    neither of the other two lists, whatever list it was in; the keys with
    another identifier stay in the lists they were in. *)
Theorem activated_key_is_listed (db db' : database) (r : request)
    (hash : pystr) (k : Key.t) (msgs : list (level * pystr)) (to : url) :
  keys_unique (keys db) ->
  keys_consistent (keys db) ->
  Key_get (keys db) hash = Some k ->
  ActivateKey db r hash = Redirected db' msgs to ->
  with_status k (u "active") ∈ ActiveKeysList db'
  /\ (forall k', k' ∈ PendingKeysList db' \/ k' ∈ InactiveKeysList db' ->
        Key.hash k' <> hash)
  /\ (forall k', Key.hash k' <> hash ->
        (k' ∈ ActiveKeysList db' <-> k' ∈ ActiveKeysList db)
        /\ (k' ∈ PendingKeysList db' <-> k' ∈ PendingKeysList db)
        /\ (k' ∈ InactiveKeysList db' <-> k' ∈ InactiveKeysList db)).
Proof.
  intros Hu Hc Hk. pose proof (Key_get_Some _ _ _ Hk) as [Hin Hh].
  unfold ActivateKey. rewrite Hk, (status_saved _ _ _ _ Hc Hk).
  intros [= <- <- <-].
  unfold ActiveKeysList, PendingKeysList, InactiveKeysList.
  cbn [keys with_keys]. split_and!.
  - apply list_elem_of_filter. split; [done|]. apply upsert_elem_of; auto.
  - intros k' [[Hs Hk']%list_elem_of_filter|[Hs Hk']%list_elem_of_filter];
      apply upsert_elem_of in Hk' as [->|[_ Hne]]; try done;
      simpl in *; congruence.
  - intros k' Hne. rewrite !list_elem_of_filter, !upsert_elem_of by done.
    simpl. split_and!; split; intros [? H]; (split; [done|]).
    all: try (destruct H as [->|[? ?]]; [simpl in Hne; congruence|done]).
    all: right; split; [done|congruence].
Qed.

Lemma KeySearch_outcome_db db r :
  exists msgs to, KeySearch db r = Redirected db msgs to.
Proof.
  unfold KeySearch. destruct (GET_sb r) as [searchbox|]; [|by eexists _, _].
  repeat case_bool_decide; try by eexists _, _.
  destruct (filter (fun k => Key.name k = searchbox) (keys db)); by eexists _, _.
Qed.

(** X14.  [KeySearch] changes no table and always answers with a redirect.  A
    query that is some key's identifier leads to that key, even when
    another key has the query as its name; otherwise a query that is some
    key's name leads to a key of that name; otherwise to the list of
    keys, with the error message.  Without a query, or with an empty one,
    it leads to the list of keys and adds no message. *)
Theorem KeySearch_outcome (db : database) (r : request) :
  exists msgs to,
    KeySearch db r = Redirected db msgs to
    /\ match GET_sb r with
       | Some (c :: q) =>
           let searchbox := c :: q in
           (searchbox ∈ Key.hash <$> keys db ->
              msgs = messages r
              /\ to = Reverse (u "key_details") [(u "hash", searchbox)])
           /\ (searchbox ∉ Key.hash <$> keys db ->
               searchbox ∈ Key.name <$> keys db ->
               msgs = messages r
               /\ exists k, k ∈ keys db /\ Key.name k = searchbox
                    /\ to = Reverse (u "key_details") [(u "hash", Key.hash k)])
           /\ (searchbox ∉ Key.hash <$> keys db ->
               searchbox ∉ Key.name <$> keys db ->
               msgs = messages r ++ [(ERROR, u "No se ha encontrado la clave.")]
               /\ to = Reverse (u "keys") [])
       | _ => msgs = messages r /\ to = Reverse (u "keys") []
       end.
Proof.
  unfold KeySearch. destruct (GET_sb r) as [[|c q]|]; [by eexists _, _..| |by eexists _, _].
  rewrite bool_decide_true by done.
  set (searchbox := c :: q).
  assert (forall (f : Key.t -> pystr),
            filter (fun k => f k = searchbox) (keys db) = [] <->
            searchbox ∉ f <$> keys db) as Hfilter.
  { intros f. split.
    - intros Hnil (k & Hk & Hin)%list_elem_of_fmap.
      by apply (filter_nil_not_elem_of _ _ k Hnil).
    - intros Hnin. destruct (filter _ _) as [|k l] eqn:Hf; [done|].
      destruct Hnin. apply list_elem_of_fmap. exists k.
      assert (k ∈ filter (fun k => f k = searchbox) (keys db)) as Hk
        by (rewrite Hf; by left).
      by apply list_elem_of_filter in Hk as [? ?]. }
  case_bool_decide as Hh.
  - eexists _, _. split; [done|]. rewrite Hfilter in Hh. split_and!; done.
  - rewrite Hfilter in Hh.
    destruct (filter (fun k => Key.name k = searchbox) (keys db)) as [|k0 l] eqn:Hn.
    + eexists _, _. split; [done|]. apply Hfilter in Hn. split_and!; done.
    + eexists _, _. split; [done|].
      assert (k0 ∈ filter (fun k => Key.name k = searchbox) (keys db)) as Hk
        by (rewrite Hn; by left).
      apply list_elem_of_filter in Hk as [? ?].
      split_and!; [done| |].
      * intros _ _. split; [done|]. by exists k0.
      * intros _ Hnin. destruct Hnin. apply list_elem_of_fmap. eauto.
Qed.

(** X15.  Registering a public key that is already registered does not add a
    key: the row of the registered key is overwritten with the values of
    the form, its status included.  A public key that is not registered
    yet gets a new row, under the digest of the public key. *)
Theorem NewKey_by_public_key (db : database) (r : request)
    (name public_key current_status : pystr) (description : option pystr)
    (hash : pystr) :
  key_identifier public_key = Return hash ->
  let saved := Key.mk hash public_key current_status name description in
  let table := upsert saved (keys db) in
  NewKey_form_valid db r name public_key current_status description
  = Redirected (with_keys db table)
      (messages r ++ [(SUCCESS, u "Se ha registrado la nueva clave.")])
      (Reverse (u "key_details") [(u "hash", hash)])
  /\ Key_get table hash = Some saved
  /\ (hash ∈ Key.hash <$> keys db -> Key.hash <$> table = Key.hash <$> keys db)
  /\ (hash ∉ Key.hash <$> keys db -> table = keys db ++ [saved])
  /\ (forall k, keys_consistent (keys db) -> k ∈ keys db ->
        Key.public_key k = public_key -> hash ∈ Key.hash <$> keys db).
Proof.
  intros Hid saved table. split_and!.
  - unfold NewKey_form_valid, Key_save. cbn [Key.public_key]. rewrite Hid. run.
    done.
  - apply (upsert_get_eq saved).
  - intros Hin. by apply upsert_hashes_known.
  - intros Hnin. by apply upsert_fresh.
  - intros k Hc Hk Hpk. unfold keys_consistent in Hc.
    rewrite Forall_forall in Hc. specialize (Hc k Hk). cbv beta in Hc.
    rewrite Hpk, Hid in Hc. injection Hc as ->.
    apply list_elem_of_fmap. eauto.
Qed.

(** X16.  [ModifyKey] changes the name and the description of a key and
    nothing else: the identifier, the public key and the status stay, no
    row is added, and the redirect leads to the page of the same key.  An
    identifier that no key has gives a 404. *)
Theorem ModifyKey_changes_name_only (db : database) (r : request)
    (hash name : pystr) (description : option pystr) :
  keys_consistent (keys db) ->
  match Key_get (keys db) hash with
  | None => ModifyKey_form_valid db r hash name description = Http404
  | Some k =>
      let saved := Key.mk hash (Key.public_key k) (Key.current_status k)
                     name description in
      let table := upsert saved (keys db) in
      ModifyKey_form_valid db r hash name description
      = Redirected (with_keys db table)
          (messages r ++
             [(SUCCESS, u "Se ha actualizado la informaci" ++ [243] ++ u "n.")])
          (Reverse (u "key_details") [(u "hash", hash)])
      /\ Key_get table hash = Some saved
      /\ Key.hash <$> table = Key.hash <$> keys db
      /\ (forall other, other <> hash -> Key_get table other = Key_get (keys db) other)
  end.
Proof.
  intros Hc. unfold ModifyKey_form_valid.
  destruct (Key_get (keys db) hash) as [k|] eqn:Hk; [|done].
  pose proof (Key_get_Some _ _ _ Hk) as [Hin <-].
  set (saved := Key.mk (Key.hash k) (Key.public_key k) (Key.current_status k)
                  name description).
  assert (key_identifier (Key.public_key k) = Return (Key.hash k)) as Hid.
  { unfold keys_consistent in Hc. rewrite Forall_forall in Hc. exact (Hc k Hin). }
  split_and!.
  - rewrite (Key_save_consistent saved (keys db) Hid). reflexivity.
  - apply (upsert_get_eq saved).
  - apply upsert_hashes_known. apply list_elem_of_fmap. exists k. by split.
  - intros other Hne. by apply upsert_get_ne.
Qed.

Lemma filter_keys_unique (P : Key.t -> Prop) `{!forall k, Decision (P k)} table :
  keys_unique table -> keys_unique (filter P table).
Proof.
  unfold keys_unique. induction table as [|row table IH]; [done|].
  rewrite fmap_cons, NoDup_cons, filter_cons. intros [Hnin Hnd].
  case_decide; [|by apply IH]. rewrite fmap_cons, NoDup_cons. split; [|by apply IH].
  intros (x & Hx & [_ Hin]%list_elem_of_filter)%list_elem_of_fmap.
  apply Hnin, list_elem_of_fmap. eauto.
Qed.

Lemma Key_save_keeps self table k table' :
  Key_save self table = Return (k, table') ->
  keys_unique table -> keys_consistent table ->
  keys_unique table' /\ keys_consistent table'.
Proof.
  intros (Hid & Hk & ->)%Key_save_Return Hu Hc. split.
  - by apply upsert_unique.
  - apply upsert_Forall; [|done]. rewrite Hk at 1. done.
Qed.

(** X17.  No view breaks the key table: after any of them there is still one
    row for each identifier, and each identifier is the digest of its
    row's public key. *)
Theorem key_views_keep_invariants (db db' : database) (r : request)
    (hash name public_key current_status : pystr)
    (description : option pystr) (result : view_result)
    (msgs : list (level * pystr)) (to : url) :
  keys_unique (keys db) ->
  keys_consistent (keys db) ->
  result ∈ [ActivateKey db r hash; DeactivateKey db r hash; RemoveKey db r hash;
            NewKey_form_valid db r name public_key current_status description;
            ModifyKey_form_valid db r hash name description; KeySearch db r] ->
  result = Redirected db' msgs to ->
  keys_unique (keys db') /\ keys_consistent (keys db').
Proof.
  intros Hu Hc Hres.
  repeat (apply elem_of_cons in Hres as [->|Hres]);
    [| | | | | |by apply elem_of_nil in Hres].
  - unfold ActivateKey. destruct (Key_get _ _) as [k|]; [|done].
    destruct (Key_save _ _) as [[k' table]|] eqn:Hs; [|done].
    intros [= <- <- <-]. by apply (Key_save_keeps _ _ _ _ Hs).
  - unfold DeactivateKey. destruct (Key_get _ _) as [k|]; [|done].
    destruct (Key_save _ _) as [[k' table]|] eqn:Hs; [|done].
    intros [= <- <- <-]. by apply (Key_save_keeps _ _ _ _ Hs).
  - unfold RemoveKey. destruct (Key_get _ _) as [k|]; [|done].
    case_bool_decide; intros [= <- <- <-]; [done|].
    cbn [keys Key_delete]. split.
    + by apply filter_keys_unique.
    + unfold keys_consistent in *. rewrite Forall_forall in Hc.
      apply Forall_forall. intros x [_ Hx]%list_elem_of_filter. exact (Hc x Hx).
  - unfold NewKey_form_valid.
    destruct (Key_save _ _) as [[k' table]|] eqn:Hs; [|done].
    intros [= <- <- <-]. by apply (Key_save_keeps _ _ _ _ Hs).
  - unfold ModifyKey_form_valid. destruct (Key_get _ _) as [k|]; [|done].
    destruct (Key_save _ _) as [[k' table]|] eqn:Hs; [|done].
    intros [= <- <- <-]. by apply (Key_save_keeps _ _ _ _ Hs).
  - destruct (KeySearch_outcome_db db r) as (msgs' & to' & ->).
    by intros [= <- <- <-].
Qed.

(** X18.  In the context of a dual-flow transaction the entries of
    [product_in] carry no successors and those of [product_out] no
    predecessors: each side is resolved in one direction only. *)
Theorem dual_flow_one_sided (table : list TransactionInput.t)
    (obj : Transaction.t) (ctx : gmap string ctxval) :
  dict_contains (u "product") (Transaction.transaction_data obj) = false ->
  outcome (get_context_data table obj) = Return ctx ->
  exists es_in es_out,
    ctx !! "product_in" = Some (CtxProducts es_in)
    /\ ctx !! "product_out" = Some (CtxProducts es_out)
    /\ Forall (fun e => is_Some (e !! "pre") /\ e !! "post" = None) es_in
    /\ Forall (fun e => is_Some (e !! "post") /\ e !! "pre" = None) es_out.
Proof.
  unfold dict_contains.
  destruct (dict_get (u "product") _) as [raw|] eqn:Hraw; [done|intros _].
  intros (valid & _ & Hctx)%get_context_data_Return.
  destruct (add_products_dual _ _ _ _ Hraw Hctx)
    as (raw_in & raw_out & pairs_in & pairs_out & es_in & es_out
        & ? & ? & ? & ? & -> & Hin & Hout).
  exists es_in, es_out. split_and!; [by simplify_map_eq..| |].
  - eapply Forall2_Forall_right; [exact Hin|].
    intros p e (e0 & e1 & ? & ? & ?). steps; by split; [eexists|].
  - eapply Forall2_Forall_right; [exact Hout|].
    intros p e (e0 & ? & ?). steps; by split; [eexists|].
Qed.

End Traceability.

(** * The model at work *)

Local Abbreviation demo_verify_sign :=
  (verify_sign (list byte) id demo_hexdigest pystr demo_importKey demo_verify).
Local Abbreviation demo_get_context_data :=
  (get_context_data (list byte) id demo_hexdigest pystr demo_importKey
     demo_verify demo_str).

(** C1 at [forged], whose identifier is not its digest. *)
Lemma verify_sign_hash_mismatch_witness :
  canonical_bytes forged = Return (message_of forged)
  /\ Transaction.hash forged <> demo_hexdigest (message_of forged)
  /\ demo_verify_sign forged = Traced [] (Return false).
Proof.
  assert (canonical_bytes forged = Return (message_of forged)) as H1
    by (vm_compute; reflexivity).
  assert (Transaction.hash forged <> demo_hexdigest (message_of forged)) as H2
    by (intros H; vm_compute in H; discriminate H).
  split_and!; [exact H1|exact H2|].
  exact (verify_sign_hash_mismatch _ id _ _ _ _ forged _ H1 H2).
Defined.

Lemma harvest_wf : dict_wf harvest.
Proof. apply (bool_decide_unpack _). by vm_compute. Qed.

(** C2 at [forged]. *)
Lemma canonical_encoding_layout_witness :
  dict_wf (Transaction.transaction_data forged)
  /\ serialized_transaction forged = spec_canonical_text forged
  /\ StronglySorted str_lt
       (dict_keys (sorted_items (Transaction.transaction_data forged))).
Proof.
  pose proof (canonical_encoding_layout forged harvest_wf) as (H1 & _ & H3 & _).
  split_and!; [exact harvest_wf|exact H1|exact H3].
Defined.

(** C3 at [forged] and [forged_swapped]: the same payload with its two
    top-level keys inserted in the two orders. *)
Lemma canonical_bytes_key_order_witness :
  dict_wf (Transaction.transaction_data forged)
  /\ Transaction.transaction_data forged ≡ₚ Transaction.transaction_data forged_swapped
  /\ canonical_bytes forged = canonical_bytes forged_swapped.
Proof.
  assert (Transaction.transaction_data forged
          ≡ₚ Transaction.transaction_data forged_swapped) as Hp
    by apply perm_swap.
  split_and!; [exact harvest_wf|exact Hp|].
  exact (canonical_bytes_key_order forged forged_swapped harvest_wf Hp
           eq_refl eq_refl eq_refl eq_refl eq_refl).
Defined.

(** C3 as stated fails below the top level: [forged] and [forged_nested]
    hold the same content, the keys of the nested mapping [origin] being
    inserted in the two orders, and their canonical bytes differ. *)
Lemma nested_key_order_changes_bytes :
  same_content (JDict (Transaction.transaction_data forged))
               (JDict (Transaction.transaction_data forged_nested)) = true
  /\ canonical_bytes forged <> canonical_bytes forged_nested.
Proof.
  split; [by vm_compute|].
  intros H. vm_compute in H. discriminate H.
Qed.

(** C4 at [badly_signed]: the identifier matches, the signature field [ab]
    is hex text and is not the signature; the answer is [False]. *)
Lemma verify_sign_signature_text_witness :
  canonical_bytes badly_signed = Return (message_of badly_signed)
  /\ Transaction.hash badly_signed = demo_hexdigest (message_of badly_signed)
  /\ demo_importKey (Key.public_key farm) = Return (Key.public_key farm)
  /\ demo_verify_sign badly_signed =
     Traced [ImportKey (Key.public_key farm); NewVerifier; Verify [xab]]
            (Return false).
Proof.
  assert (canonical_bytes badly_signed = Return (message_of badly_signed)) as H1
    by (vm_compute; reflexivity).
  assert (Transaction.hash badly_signed
          = demo_hexdigest (message_of badly_signed)) as H2
    by (vm_compute; reflexivity).
  assert (demo_importKey (Key.public_key farm) = Return (Key.public_key farm))
    as H3 by (vm_compute; reflexivity).
  split_and!; [exact H1|exact H2|exact H3|].
  rewrite (proj1 (verify_sign_signature_text (list byte) id demo_hexdigest pystr
                    demo_importKey demo_verify badly_signed _ _ H1 H2 H3)
             [byte_of (16 * 10 + 11)]
             (hex_text_pair 97 98 10 11 [] [] eq_refl eq_refl hex_text_nil)).
  vm_compute. reflexivity.
Defined.

(** C4 as stated fails at [garbled]: the identifier matches, the signature
    field [zz] is not hex text, and [verify_sign] raises [ValueError]
    instead of answering [False]. *)
Lemma verify_sign_raises_on_garbled_signature :
  Transaction.hash garbled = demo_hexdigest (message_of garbled)
  /\ canonical_bytes garbled = Return (message_of garbled)
  /\ demo_verify_sign garbled =
     Traced [ImportKey (Key.public_key farm); NewVerifier] (Raise ValueError).
Proof. split_and!; vm_compute; reflexivity. Qed.

(** C5 at the example of the specification: rows (B, A, P) and (C, B, P),
    transaction B, product P: predecessors [A], successors [C]. *)
Lemma lineage_links_witness :
  outcome (demo_get_context_data links tx_B) =
  Return (<["product" := CtxProducts
             [<["post" := JList [JStr (u "C")]]>
                (<["pre" := JList [JStr (u "A")]]>
                   (<["quantity" := JInt 5]>
                      (<["product" := JStr (u "P")]> ∅)))]]>
            (<["sign" := CtxValue (JBool false)]> (super_get_context_data tx_B)))
  /\ (forall x,
        x ∈ inputs_of demo_str links (u "B") (JStr (u "P")) <->
        exists row, row ∈ links
          /\ TransactionInput.t_hash row = u "B"
          /\ TransactionInput.product row = u "P"
          /\ TransactionInput.input row = x)
  /\ exists pairs es,
       py_iter (pair_list [(u "P", JInt 5)]) = Return pairs
       /\ Forall2 (fun p e => has_pre demo_str links (u "B") p e
                              /\ has_post demo_str links (u "B") p e) pairs es.
Proof.
  match goal with |- ?hyp /\ _ => assert hyp as H by (vm_compute; reflexivity) end.
  split; [exact H|].
  destruct (lineage_links _ _ _ _ _ _ _ _ _ _ H) as (Hs & _ & Hin & _).
  split; [exact (Hin (u "P"))|].
  destruct (Hs _ eq_refl) as (pairs & es & ? & _ & ?). by exists pairs, es.
Defined.

(** C6 at [shapeless], whose payload has none of the three keys. *)
Lemma malformed_payload_fails_witness :
  dict_contains (u "product") (Transaction.transaction_data shapeless) = false
  /\ dict_contains (u "product_in") (Transaction.transaction_data shapeless) = false
  /\ outcome (demo_verify_sign shapeless) = Return false
  /\ raises (outcome (demo_get_context_data links shapeless))
  /\ outcome (demo_get_context_data links shapeless)
     = Raise (KeyError (JStr (u "product_in"))).
Proof.
  assert (dict_contains (u "product") (Transaction.transaction_data shapeless)
          = false) as H1 by reflexivity.
  assert (dict_contains (u "product_in") (Transaction.transaction_data shapeless)
          = false) as H2 by reflexivity.
  assert (outcome (demo_verify_sign shapeless) = Return false) as H3
    by (vm_compute; reflexivity).
  destruct (malformed_payload_fails (list byte) id demo_hexdigest pystr
              demo_importKey demo_verify demo_str links shapeless H1 (or_introl H2))
    as [Hr Hk].
  split_and!; [exact H1|exact H2|exact H3|exact Hr|exact (Hk H2 _ H3)].
Defined.

(** C7 at [harvested]: [P1] with a null quantity is given the 42 of the
    mapping, [P2] with quantity 7 keeps it though the mapping says 99. *)
Lemma quantity_resolution_witness :
  outcome (demo_get_context_data links harvested) =
  Return (<["product" := CtxProducts
             [<["post" := JList []]>
                (<["pre" := JList []]>
                   (<["quantity" := JInt 42]>
                      (<["product" := JStr (u "P1")]> ∅)));
              <["post" := JList []]>
                (<["pre" := JList []]>
                   (<["quantity" := JInt 7]>
                      (<["product" := JStr (u "P2")]> ∅)))]]>
            (<["sign" := CtxValue (JBool false)]>
               (super_get_context_data harvested)))
  /\ exists pairs es,
       py_iter (pair_list [(u "P1", JNull); (u "P2", JInt 7)]) = Return pairs
       /\ Forall2 (quantity_resolved stock) pairs es.
Proof.
  match goal with |- ?hyp /\ _ => assert hyp as H by (vm_compute; reflexivity) end.
  split; [exact H|].
  destruct (quantity_resolution _ _ _ _ _ _ _ _ _ _ H) as (Hs & _).
  destruct (Hs _ eq_refl eq_refl) as (pairs & es & ? & _ & ?). by exists pairs, es.
Defined.

(** C7 as stated fails at [milled], a dual-flow transaction: the null
    quantity of [P1] in [product_out] is left null, though the mapping
    holds 42 for [P1]; the same pair in [product_in] is resolved. *)
Lemma product_out_quantity_not_resolved :
  Transaction.updated_quantity milled !! u "P1" = Some (JInt 42)
  /\ outcome (demo_get_context_data links milled) =
     Return (<["product_out" := CtxProducts
                [<["post" := JList []]>
                   (<["quantity" := JNull]>
                      (<["product" := JStr (u "P1")]> ∅))]]>
               (<["product_in" := CtxProducts
                   [<["pre" := JList []]>
                      (<["quantity" := JInt 42]>
                         (<["product" := JStr (u "P1")]> ∅))]]>
                  (<["sign" := CtxValue (JBool false)]>
                     (super_get_context_data milled)))).
Proof. split; vm_compute; reflexivity. Qed.

(** C8 at [minting]: both entries carry the new identifier, whether the
    pair held a quantity or an identifier. *)
Lemma minted_identifier_witness :
  dict_get (u "new_id") (Transaction.transaction_data minting)
  = Some (JStr (u "ID-1"))
  /\ py_truthy (JStr (u "ID-1")) = true
  /\ outcome (demo_get_context_data links minting) =
     Return (<["product" := CtxProducts
                [<["post" := JList []]>
                   (<["pre" := JList []]>
                      (<["newid" := JStr (u "ID-1")]>
                         (<["product" := JStr (u "P1")]> ∅)));
                 <["post" := JList []]>
                   (<["pre" := JList []]>
                      (<["newid" := JStr (u "ID-1")]>
                         (<["product" := JStr (u "P2")]> ∅)))]]>
               (<["sign" := CtxValue (JBool false)]>
                  (super_get_context_data minting)))
  /\ exists es, Forall (minted (JStr (u "ID-1"))) es /\ length es = 2%nat.
Proof.
  assert (dict_get (u "new_id") (Transaction.transaction_data minting)
          = Some (JStr (u "ID-1"))) as H1 by reflexivity.
  assert (py_truthy (JStr (u "ID-1")) = true) as H2 by reflexivity.
  match goal with
  | |- _ /\ _ /\ ?hyp /\ _ => assert hyp as H3 by (vm_compute; reflexivity)
  end.
  split_and!; [exact H1|exact H2|exact H3|].
  destruct (minted_identifier _ _ _ _ _ _ _ _ _ _ _ H1 H2 H3) as (Hs & _).
  destruct (Hs eq_refl) as (es & Hes & ?). exists es. split; [done|].
  rewrite lookup_insert_eq in Hes. by simplify_eq.
Defined.

(** C8 as stated fails at [minting_empty]: the payload has a [new_id], the
    empty string, and the entry carries the quantity of its pair and no
    [newid]. *)
Lemma empty_new_id_not_attached :
  dict_get (u "new_id") (Transaction.transaction_data minting_empty)
  = Some (JStr [])
  /\ outcome (demo_get_context_data links minting_empty) =
     Return (<["product" := CtxProducts
                [<["post" := JList []]>
                   (<["pre" := JList []]>
                      (<["quantity" := JInt 7]>
                         (<["product" := JStr (u "P1")]> ∅)))]]>
               (<["sign" := CtxValue (JBool false)]>
                  (super_get_context_data minting_empty))).
Proof. split; vm_compute; reflexivity. Qed.

(** C9 at [unstocked]: [P3] has a null quantity and is not a key of the
    mapping. *)
Lemma quantity_lookup_unguarded_witness :
  outcome (demo_verify_sign unstocked) = Return false
  /\ dict_get (u "product") (Transaction.transaction_data unstocked)
     = Some (pair_list [(u "P1", JNull); (u "P3", JNull)])
  /\ py_truthy (newid_of (Transaction.transaction_data unstocked)) = false
  /\ Transaction.updated_quantity unstocked !! u "P3" = None
  /\ exists c,
       Transaction.updated_quantity unstocked !! c = None
       /\ outcome (demo_get_context_data links unstocked)
          = Raise (KeyError (JStr c)).
Proof.
  assert (outcome (demo_verify_sign unstocked) = Return false) as H1
    by (vm_compute; reflexivity).
  assert (dict_get (u "product") (Transaction.transaction_data unstocked)
          = Some (pair_list [(u "P1", JNull); (u "P3", JNull)])) as H2
    by reflexivity.
  assert (py_truthy (newid_of (Transaction.transaction_data unstocked)) = false)
    as H3 by reflexivity.
  assert (Transaction.updated_quantity unstocked !! u "P3" = None) as H4
    by (vm_compute; reflexivity).
  split_and!; [exact H1|exact H2|exact H3|exact H4|].
  destruct (quantity_lookup_unguarded (list byte) id demo_hexdigest pystr
              demo_importKey demo_verify demo_str links unstocked false _ H1
              (or_introl (conj H2 H3))) as [Hraise _].
  destruct (Hraise (u "P3")) as (c & _ & ? & ?); [|exact H4|by exists c].
  right. left.
Defined.

(** C9 as stated fails at [milled_unstocked], a dual-flow transaction:
    [P1] in [product_out] has a null quantity and the mapping is empty,
    and [get_context_data] returns, the quantity left null. *)
Lemma product_out_lookup_not_attempted :
  Transaction.updated_quantity milled_unstocked !! u "P1" = None
  /\ outcome (demo_get_context_data links milled_unstocked) =
     Return (<["product_out" := CtxProducts
                [<["post" := JList []]>
                   (<["quantity" := JNull]>
                      (<["product" := JStr (u "P1")]> ∅))]]>
               (<["product_in" := CtxProducts []]>
                  (<["sign" := CtxValue (JBool false)]>
                     (super_get_context_data milled_unstocked)))).
Proof. split; vm_compute; reflexivity. Qed.

(** C10 at a list of three pairs, read without a new identifier. *)
Lemma product_entry_exclusive_witness :
  make_product_list
    (pair_list [(u "P1", JNull); (u "P2", JStr (u "OLD")); (u "P3", JInt 4)]) JNull
  = Return [<["quantity" := JNull]> (<["product" := JStr (u "P1")]> ∅);
            <["id" := JStr (u "OLD")]> (<["product" := JStr (u "P2")]> ∅);
            <["quantity" := JInt 4]> (<["product" := JStr (u "P3")]> ∅)]
  /\ exists pairs es,
       length es = 3%nat /\ Forall2 (one_identification JNull) pairs es.
Proof.
  match goal with |- ?hyp /\ _ => assert hyp as H by (vm_compute; reflexivity) end.
  split; [exact H|].
  destruct (product_entry_exclusive _ _ _ H) as [(pairs & _ & HF) _].
  eexists pairs, _. split; [|exact HF]. reflexivity.
Defined.

(** ** More of the model at work *)

Local Abbreviation demo_ActivateKey := (ActivateKey (list byte) id demo_hexdigest).
Local Abbreviation demo_consistent := (keys_consistent (list byte) id demo_hexdigest).

(** The canonical bytes of [forged]: one for each character. *)
Lemma canonical_bytes_total_witness :
  floats_ascii (JDict (Transaction.transaction_data forged)) = true
  /\ canonical_bytes forged = Return (byte_of <$> serialized_transaction forged).
Proof.
  assert (floats_ascii (JDict (Transaction.transaction_data forged)) = true)
    as H by reflexivity.
  split; [exact H|].
  destruct (canonical_bytes_total forged H) as (_ & message & -> & _ & ->).
  reflexivity.
Defined.

(** [garbled] raises, and it is the signature's [ValueError]. *)
Lemma verify_sign_raises_only_witness :
  floats_ascii (JDict (Transaction.transaction_data garbled)) = true
  /\ outcome (demo_verify_sign garbled) = Raise ValueError
  /\ Transaction.hash garbled
     = demo_hexdigest (byte_of <$> serialized_transaction garbled).
Proof.
  assert (floats_ascii (JDict (Transaction.transaction_data garbled)) = true)
    as H1 by reflexivity.
  assert (outcome (demo_verify_sign garbled) = Raise ValueError) as H2
    by (vm_compute; reflexivity).
  split_and!; [exact H1|exact H2|].
  exact (proj1 (verify_sign_raises_only (list byte) id demo_hexdigest pystr
                  demo_importKey demo_verify garbled ValueError H1 H2)).
Defined.

(** [forged] is shown, unverified; [garbled] cannot be shown. *)
Lemma view_and_verification_witness :
  floats_ascii (JDict (Transaction.transaction_data forged)) = true
  /\ demo_get_context_data links forged =
     Traced [] (add_products demo_str links forged
                  (<["sign" := CtxValue (JBool false)]>
                     (super_get_context_data forged)))
  /\ demo_get_context_data links garbled =
     Traced [ImportKey (Key.public_key farm); NewVerifier] (Raise ValueError).
Proof.
  assert (floats_ascii (JDict (Transaction.transaction_data forged)) = true)
    as H by reflexivity.
  split_and!; [exact H| |].
  - apply (proj1 (view_and_verification (list byte) id demo_hexdigest pystr
                    demo_importKey demo_verify demo_str links forged H)).
    intros Heq. vm_compute in Heq. discriminate Heq.
  - apply (proj2 (view_and_verification (list byte) id demo_hexdigest pystr
                    demo_importKey demo_verify demo_str links garbled eq_refl)).
    + vm_compute. reflexivity.
    + eexists. vm_compute. reflexivity.
    + intros signature Hs.
      pose proof (fromhex_hex_text _ _ Hs) as Hf. vm_compute in Hf. discriminate Hf.
Defined.

(** The context of [tx_B] has the five keys of a single-product
    transaction. *)
Lemma context_keys_witness :
  (exists ctx, outcome (demo_get_context_data links tx_B) = Return ctx
     /\ dom ctx = {["object"; "t"; "view"; "sign"; "product"]}).
Proof.
  destruct (outcome (demo_get_context_data links tx_B)) as [ctx|] eqn:H;
    [|vm_compute in H; discriminate H].
  exists ctx. split; [done|].
  exact (proj2 (proj2 (proj2 (proj2
    (context_keys (list byte) id demo_hexdigest pystr demo_importKey
       demo_verify demo_str links tx_B ctx H))))).
Defined.

(** One-element pairs with and without a new identifier. *)
Lemma pair_value_read_only_without_newid_witness :
  make_product_list (JList [JList [JStr (u "P1")]]) (JStr (u "ID-1"))
  = Return [<["newid" := JStr (u "ID-1")]> (<["product" := JStr (u "P1")]> ∅)]
  /\ make_product_list (JList [JList [JStr (u "P1")]]) JNull = Raise IndexError.
Proof.
  split.
  - exact (proj1 (pair_value_read_only_without_newid [JStr (u "P1")]
                    (JStr (u "ID-1"))) eq_refl).
  - refine (proj2 (pair_value_read_only_without_newid [JStr (u "P1")] JNull)
              eq_refl _). discriminate.
Defined.

(** The link rows of the example are unique. *)
Lemma lineage_lists_distinct_witness :
  unique_together links
  /\ NoDup (inputs_of demo_str links (u "B") (JStr (u "P"))).
Proof.
  assert (unique_together links) as H
    by (apply (bool_decide_unpack _); vm_compute; reflexivity).
  split; [exact H|].
  exact (proj1 (lineage_lists_distinct demo_str links (u "B") (JStr (u "P")) H)).
Defined.

(** Resolving twice, with a mapping that answers 42 for [P1]. *)
Lemma set_quantity_idempotent_witness :
  set_quantity [<["quantity" := JNull]> (<["product" := JStr (u "P1")]> ∅)] stock
  = Return [<["quantity" := JInt 42]> (<["product" := JStr (u "P1")]> ∅)]
  /\ set_quantity
       [<["quantity" := JInt 42]> (<["product" := JStr (u "P1")]> ∅)] stock
     = Return [<["quantity" := JInt 42]> (<["product" := JStr (u "P1")]> ∅)].
Proof.
  assert (set_quantity
            [<["quantity" := JNull]> (<["product" := JStr (u "P1")]> ∅)] stock
          = Return [<["quantity" := JInt 42]> (<["product" := JStr (u "P1")]> ∅)])
    as H by (vm_compute; reflexivity).
  split; [exact H|]. exact (set_quantity_idempotent _ _ _ H).
Defined.

Lemma registry_consistent : demo_consistent (keys registry).
Proof. repeat constructor; vm_compute; reflexivity. Qed.

Lemma registry_unique : keys_unique (keys registry).
Proof. apply (bool_decide_unpack _). vm_compute. reflexivity. Qed.

(** Saving [k_mill] under a wrong identifier puts it back under its own. *)
Lemma Key_save_identifier_witness :
  Key_save (list byte) id demo_hexdigest
    (Key.mk (u "wrong") (u "PEM-MILL") (u "new") (u "mill") None) (keys registry)
  = Return (k_mill, keys registry)
  /\ Key_get (keys registry) (Key.hash k_mill) = Some k_mill.
Proof.
  match goal with |- ?hyp /\ _ => assert hyp as H by (vm_compute; reflexivity) end.
  split; [exact H|].
  exact (proj1 (proj2 (proj2 (proj2 (proj2 (proj2
    (Key_save_identifier (list byte) id demo_hexdigest _ _ _ _ H))))))).
Defined.

(** Activating the pending key [k_mill]. *)
Lemma status_views_witness :
  demo_consistent (keys registry)
  /\ Key_get (keys registry) (Key.hash k_mill) = Some k_mill
  /\ demo_ActivateKey registry from_keys_page (Key.hash k_mill) =
     Redirected
       (with_keys registry (upsert (with_status k_mill (u "active")) (keys registry)))
       [(SUCCESS, u "La clave 'mill' se ha activado correctamente.")]
       (Path (u "/keys/")).
Proof.
  assert (Key_get (keys registry) (Key.hash k_mill) = Some k_mill) as H
    by (vm_compute; reflexivity).
  split_and!; [exact registry_consistent|exact H|].
  exact (proj1 (status_views (list byte) id demo_hexdigest registry from_keys_page
                  _ _ registry_consistent H)).
Defined.

(** No key has the identifier [nobody]. *)
Lemma key_not_found_is_not_reported_witness :
  Key_get (keys registry) (u "nobody") = None
  /\ demo_ActivateKey registry from_keys_page (u "nobody")
     = NameError (u "ObjectDoesNotExist")
  /\ RemoveKey registry from_keys_page (u "nobody")
     = NameError (u "ObjectDoesNotExist").
Proof.
  assert (Key_get (keys registry) (u "nobody") = None) as H by reflexivity.
  destruct (proj1 (key_not_found_is_not_reported (list byte) id demo_hexdigest
                     registry from_keys_page (u "nobody")) H) as (H1 & _ & H3).
  split_and!; [exact H|exact H1|exact H3].
Defined.

(** The active key [k_farm] is not deleted. *)
Lemma RemoveKey_only_pending_witness :
  Key_get (keys registry) (Key.hash k_farm) = Some k_farm
  /\ Key.current_status k_farm <> u "new"
  /\ RemoveKey registry from_keys_page (Key.hash k_farm) =
     Redirected registry
       [(ERROR, u "No se pueden eliminar claves que ya han sido activadas.")]
       (Path (u "/keys/")).
Proof.
  assert (Key_get (keys registry) (Key.hash k_farm) = Some k_farm) as H1
    by (vm_compute; reflexivity).
  assert (Key.current_status k_farm <> u "new") as H2 by discriminate.
  split_and!; [exact H1|exact H2|].
  exact (proj1 (RemoveKey_only_pending registry from_keys_page _ _ H1) H2).
Defined.



(** [k_mill], once activated, is among the active keys. *)
Lemma activated_key_is_listed_witness :
  keys_unique (keys registry)
  /\ demo_consistent (keys registry)
  /\ with_status k_mill (u "active")
     ∈ ActiveKeysList
         (with_keys registry
            (upsert (with_status k_mill (u "active")) (keys registry))).
Proof.
  split_and!; [exact registry_unique|exact registry_consistent|].
  refine (proj1 (activated_key_is_listed (list byte) id demo_hexdigest registry _
                   from_keys_page (Key.hash k_mill) k_mill _ _
                   registry_unique registry_consistent _ _)).
  - vm_compute. reflexivity.
  - vm_compute. reflexivity.
Defined.

(** Registering the public key of [k_farm] again, as pending. *)
Lemma NewKey_by_public_key_witness :
  key_identifier (list byte) id demo_hexdigest (u "PEM-FARM")
  = Return (Key.hash k_farm)
  /\ Key.hash <$> upsert (Key.mk (Key.hash k_farm) (u "PEM-FARM") (u "new")
                            (u "farm again") None) (keys registry)
     = Key.hash <$> keys registry
  /\ Key_get (upsert (Key.mk (Key.hash k_farm) (u "PEM-FARM") (u "new")
                        (u "farm again") None) (keys registry)) (Key.hash k_farm)
     = Some (Key.mk (Key.hash k_farm) (u "PEM-FARM") (u "new") (u "farm again") None).
Proof.
  assert (key_identifier (list byte) id demo_hexdigest (u "PEM-FARM")
          = Return (Key.hash k_farm)) as H by (vm_compute; reflexivity).
  destruct (NewKey_by_public_key (list byte) id demo_hexdigest registry
              from_keys_page (u "farm again") (u "PEM-FARM") (u "new") None _ H)
    as (_ & Hget & Hknown & _).
  split_and!; [exact H| |exact Hget].
  apply Hknown. apply (bool_decide_unpack _). vm_compute. reflexivity.
Defined.

(** Renaming [k_port]. *)
Lemma ModifyKey_changes_name_only_witness :
  demo_consistent (keys registry)
  /\ Key_get (keys registry) (Key.hash k_port) = Some k_port
  /\ Key_get (upsert (Key.mk (Key.hash k_port) (Key.public_key k_port)
                        (Key.current_status k_port) (u "harbour") None)
                (keys registry)) (Key.hash k_port)
     = Some (Key.mk (Key.hash k_port) (u "PEM-PORT") (u "inactive") (u "harbour") None).
Proof.
  assert (Key_get (keys registry) (Key.hash k_port) = Some k_port) as H
    by (vm_compute; reflexivity).
  split_and!; [exact registry_consistent|exact H|].
  pose proof (ModifyKey_changes_name_only (list byte) id demo_hexdigest registry
                from_keys_page (Key.hash k_port) (u "harbour") None
                registry_consistent) as Hm.
  rewrite H in Hm. exact (proj1 (proj2 Hm)).
Defined.

(** The table after [k_mill] is activated. *)
Lemma key_views_keep_invariants_witness :
  keys_unique (keys registry)
  /\ demo_consistent (keys registry)
  /\ keys_unique (upsert (with_status k_mill (u "active")) (keys registry))
  /\ demo_consistent (upsert (with_status k_mill (u "active")) (keys registry)).
Proof.
  split; [exact registry_unique|]. split; [exact registry_consistent|].
  refine (key_views_keep_invariants (list byte) id demo_hexdigest registry
            (with_keys registry (upsert (with_status k_mill (u "active")) (keys registry)))
            from_keys_page (Key.hash k_mill) [] [] [] None
            (demo_ActivateKey registry from_keys_page (Key.hash k_mill))
            _ _ registry_unique registry_consistent _ _).
  - by left.
  - vm_compute. reflexivity.
Defined.

(** The two sides of [milled]. *)
Lemma dual_flow_one_sided_witness :
  dict_contains (u "product") (Transaction.transaction_data milled) = false
  /\ exists ctx es_in es_out,
       outcome (demo_get_context_data links milled) = Return ctx
       /\ ctx !! "product_in" = Some (CtxProducts es_in)
       /\ ctx !! "product_out" = Some (CtxProducts es_out)
       /\ Forall (fun e => is_Some (e !! "pre") /\ e !! "post" = None) es_in
       /\ Forall (fun e => is_Some (e !! "post") /\ e !! "pre" = None) es_out.
Proof.
  split; [reflexivity|].
  destruct (outcome (demo_get_context_data links milled)) as [ctx|] eqn:H;
    [|vm_compute in H; discriminate H].
  destruct (dual_flow_one_sided (list byte) id demo_hexdigest pystr demo_importKey
              demo_verify demo_str links milled ctx eq_refl H)
    as (es_in & es_out & ? & ? & ? & ?).
  by exists ctx, es_in, es_out.
Defined.
